(** * Coordinator and member credentials: the handlers of src/routes/auth.js

    A shallow embedding of the four route handlers of [authRoutes]
    (POST /auth/register, DELETE /auth/unregister, POST /auth/coordinator,
    POST /auth/member) together with the JavaScript built-ins they call,
    and the properties of the credential subsystem proved about them. *)

From Stdlib Require Import NArith Ascii String Strings.Byte Lia.
From stdpp Require Import base option list numbers.

Set Default Proof Using "Type".
Open Scope N_scope.

(** ** JavaScript strings

    A JavaScript string is a finite sequence of UTF-16 code units.  [===] on
    two strings is equality of these sequences. *)

Definition jsstring : Type := list N.

(** The string written by an ASCII literal. *)
Definition str (s : string) : jsstring :=
  map N_of_ascii (list_ascii_of_string s).

Definition strict_eq (a b : jsstring) : bool := bool_decide (a = b).
Infix "===" := strict_eq (at level 70, no associativity).

(** Truthiness of a value that is a string or [undefined]: [undefined] and
    the empty string are falsy.  [truthy v] is the string when [v] is
    truthy. *)
Definition truthy (v : option jsstring) : option jsstring :=
  match v with
  | Some (c :: s) => Some (c :: s)
  | _ => None
  end.

(** ** Completions

    What a call can throw: one of the typed errors built by errors.js (kind,
    and the message the handler passes, if it passes one), or the [URIError]
    of the built-in decoder. *)

Inductive ErrorKind : Type :=
| Unauthorized
| BadRequest
| Conflict
| NotFound
| ProjectNotFound.

Inductive Thrown : Type :=
| TypedError (kind : ErrorKind) (message : option string)
| URIError.

Definition unauthorizedError (message : string) : Thrown :=
  TypedError Unauthorized (Some message).
Definition badRequestError (message : string) : Thrown :=
  TypedError BadRequest (Some message).
Definition conflictError (message : string) : Thrown :=
  TypedError Conflict (Some message).
Definition notFoundError (message : string) : Thrown :=
  TypedError NotFound (Some message).
Definition projectNotFoundError : Thrown :=
  TypedError ProjectNotFound None.

Definition kind_of (e : Thrown) : option ErrorKind :=
  match e with
  | TypedError k _ => Some k
  | URIError => None
  end.

Inductive Completion (A : Type) : Type :=
| Normal (value : A)
| Throw (error : Thrown).
Arguments Normal {A} value.
Arguments Throw {A} error.

(** ** decodeURIComponent

    The built-in follows the Decode operation of ECMA-262 with an empty set
    of preserved escapes: a code unit other than [%] is copied; [%] must be
    followed by two hexadecimal digits giving an octet [B]; an octet below
    0x80 stands for itself; otherwise [B] opens a UTF-8 sequence of [n]
    octets, [n] the number of leading one bits of [B], whose further octets
    are each written as an escape, and the code point they encode is
    appended in UTF-16.  Everything else throws [URIError]. *)

Definition PERCENT : N := 37.

Definition hex_digit_value (c : N) : option N :=
  if (48 <=? c) && (c <=? 57) then Some (c - 48)
  else if (65 <=? c) && (c <=? 70) then Some (c - 55)
  else if (97 <=? c) && (c <=? 102) then Some (c - 87)
  else None.

Definition ParseHexOctet (h1 h2 : N) : option N :=
  match hex_digit_value h1, hex_digit_value h2 with
  | Some a, Some b => Some (16 * a + b)
  | _, _ => None
  end.

(** Number of leading one bits of an octet. *)
Definition leading_ones (B : N) : nat :=
  if negb (N.testbit B 7) then 0
  else if negb (N.testbit B 6) then 1
  else if negb (N.testbit B 5) then 2
  else if negb (N.testbit B 4) then 3
  else if negb (N.testbit B 3) then 4
  else 5.

Definition is_continuation (b : N) : bool :=
  N.testbit b 7 && negb (N.testbit b 6).

Definition payload (b : N) : N := N.land b 63.

(** The code point encoded by a list of [n >= 2] octets, when they are a
    valid UTF-8 encoding: continuation octets of the form 10xxxxxx, the
    shortest encoding, no surrogate, at most U+10FFFF. *)
Definition utf8_code_point (Octets : list N) : option N :=
  match Octets with
  | [B; b1] =>
      let V := N.lor (N.shiftl (N.land B 31) 6) (payload b1) in
      if is_continuation b1 && (128 <=? V) then Some V else None
  | [B; b1; b2] =>
      let V := N.lor (N.shiftl (N.land B 15) 12)
                 (N.lor (N.shiftl (payload b1) 6) (payload b2)) in
      if is_continuation b1 && is_continuation b2 && (2048 <=? V)
         && negb ((55296 <=? V) && (V <=? 57343))
      then Some V else None
  | [B; b1; b2; b3] =>
      let V := N.lor (N.shiftl (N.land B 7) 18)
                 (N.lor (N.shiftl (payload b1) 12)
                    (N.lor (N.shiftl (payload b2) 6) (payload b3))) in
      if is_continuation b1 && is_continuation b2 && is_continuation b3
         && (65536 <=? V) && (V <=? 1114111)
      then Some V else None
  | _ => None
  end.

Definition UTF16EncodeCodePoint (cp : N) : jsstring :=
  if cp <=? 65535 then [cp]
  else [ (cp - 65536) / 1024 + 55296; (cp - 65536) mod 1024 + 56320 ].

(** Reads one escape [%XX] at the head of [s] and hands its octet and the
    rest of the string to [k]; [throw] when [s] does not start with one. *)
Definition with_escape {A : Type} (s : jsstring) (throw : A)
    (k : N -> jsstring -> A) : A :=
  match s with
  | c :: h1 :: h2 :: rest =>
      if c =? PERCENT then
        match ParseHexOctet h1 h2 with
        | Some B => k B rest
        | None => throw
        end
      else throw
  | _ => throw
  end.

Definition append_to (S : jsstring) (R : Completion jsstring)
    : Completion jsstring :=
  match R with
  | Normal r => Normal (S ++ r)
  | Throw e => Throw e
  end.

Definition decoded (Octets : list N) (R : Completion jsstring)
    : Completion jsstring :=
  match utf8_code_point Octets with
  | Some V => append_to (UTF16EncodeCodePoint V) R
  | None => Throw URIError
  end.

Fixpoint decodeURIComponent (s : jsstring) : Completion jsstring :=
  match s with
  | [] => Normal []
  | C :: s' =>
      if negb (C =? PERCENT) then append_to [C] (decodeURIComponent s')
      else
        with_escape s (Throw URIError) (fun B s1 =>
          match leading_ones B with
          | 0%nat => append_to [B] (decodeURIComponent s1)
          | 2%nat =>
              with_escape s1 (Throw URIError) (fun b1 s2 =>
                decoded [B; b1] (decodeURIComponent s2))
          | 3%nat =>
              with_escape s1 (Throw URIError) (fun b1 s2 =>
                with_escape s2 (Throw URIError) (fun b2 s3 =>
                  decoded [B; b1; b2] (decodeURIComponent s3)))
          | 4%nat =>
              with_escape s1 (Throw URIError) (fun b1 s2 =>
                with_escape s2 (Throw URIError) (fun b2 s3 =>
                  with_escape s3 (Throw URIError) (fun b3 s4 =>
                    decoded [B; b1; b2; b3] (decodeURIComponent s4))))
          | _ => Throw URIError
          end)
  end.

(** ** RegExp.prototype.test

    Patterns are matched the way ECMA-262 defines it: a matcher takes the
    current state and a continuation and answers whether the rest of the
    pattern can succeed from there.  The atoms are single characters and
    character ranges of ASCII, for which matching by code unit and by code
    point (flag [u]) agree. *)

Inductive Pattern : Type :=
| AssertStart                                   (* ^ *)
| AssertEnd                                     (* $ *)
| Char (ch : N)                                 (* a literal character *)
| Range (lo hi : N)                             (* [lo-hi] *)
| Seq (r1 r2 : Pattern)                         (* r1 r2 *)
| Quantified (r : Pattern) (min max : nat).     (* r{min,max}, greedy *)

(** [r?] is [r{0,1}] and [\d] is [[0-9]]. *)
Definition Optional (r : Pattern) : Pattern := Quantified r 0 1.
Definition Digit : Pattern := Range 48 57.

Record MatchState : Type := mkState { endIndex : nat; input : jsstring }.

Definition Matcher : Type := MatchState -> (MatchState -> bool) -> bool.

Definition CharacterSetMatcher (accepts : N -> bool) : Matcher :=
  fun x c =>
    match input x with
    | [] => false
    | ch :: rest =>
        if accepts ch then c (mkState (S (endIndex x)) rest) else false
    end.

Fixpoint RepeatMatcher (m : Matcher) (min max : nat) (x : MatchState)
    (c : MatchState -> bool) {struct max} : bool :=
  match max with
  | O => c x
  | S max2 =>
      let d := fun y =>
        if Nat.eqb min 0 && Nat.eqb (endIndex y) (endIndex x) then false
        else RepeatMatcher m (Nat.pred min) max2 y c in
      if negb (Nat.eqb min 0) then m x d
      else if m x d then true else c x
  end.

Fixpoint CompileSubpattern (r : Pattern) : Matcher :=
  match r with
  | AssertStart => fun x c => if Nat.eqb (endIndex x) 0 then c x else false
  | AssertEnd => fun x c => match input x with [] => c x | _ => false end
  | Char ch => CharacterSetMatcher (fun a => a =? ch)
  | Range lo hi => CharacterSetMatcher (fun a => (lo <=? a) && (a <=? hi))
  | Seq r1 r2 =>
      fun x c => CompileSubpattern r1 x (fun y => CompileSubpattern r2 y c)
  | Quantified r1 min max => RepeatMatcher (CompileSubpattern r1) min max
  end.

Definition is_leading_surrogate (c : N) : bool := (55296 <=? c) && (c <=? 56319).
Definition is_trailing_surrogate (c : N) : bool := (56320 <=? c) && (c <=? 57343).

(** The search of a pattern without the sticky flag: try the match at index
    0, then at each later index, a surrogate pair being stepped over as one
    character. *)
Fixpoint exec_from (r : Pattern) (lastIndex : nat) (s : jsstring) : bool :=
  if CompileSubpattern r (mkState lastIndex s) (fun _ => true) then true
  else
    match s with
    | [] => false
    | a :: s1 =>
        match s1 with
        | b :: s2 =>
            if is_leading_surrogate a && is_trailing_surrogate b
            then exec_from r (S (S lastIndex)) s2
            else exec_from r (S lastIndex) s1
        | [] => exec_from r (S lastIndex) s1
        end
    end.

Definition test (r : Pattern) (s : jsstring) : bool := exec_from r 0 s.

(** The literal [/^\+?[1-9]\d{1,14}$/u] of the member handler. *)
Definition PLUS : N := 43.
Definition phone_pattern : Pattern :=
  Seq AssertStart
    (Seq (Optional (Char PLUS))
       (Seq (Range 49 57)
          (Seq (Quantified Digit 1 14) AssertEnd))).

(** ** Records of the credential store and of the project registry *)

Module Coordinator.
Record t : Type := mk {
  phoneNumber : jsstring;
  projectName : jsstring;
  token : option jsstring;          (* absent until a login stamps it *)
  createdAt : jsstring
}.
End Coordinator.

Module Member.
Record t : Type := mk {
  phoneNumber : jsstring;
  token : jsstring;
  coordinatorPhone : jsstring;
  projectName : jsstring;
  createdAt : jsstring
}.
End Member.

Module Project.
Record t : Type := mk { name : jsstring }.
End Project.

Record Db : Type := mkDb {
  coordinators : list Coordinator.t;
  members : list Member.t
}.

(** Overwrites the first record that [same] recognises, or adds the record
    at the end when there is none. *)
Fixpoint upsert {A : Type} (same : A -> bool) (x : A) (l : list A) : list A :=
  match l with
  | [] => [x]
  | y :: l' => if same y then x :: l' else y :: upsert same x l'
  end.

(** Modelled from the spec: the store plugin behind [fastify.db] is not among
    the sources.  The spec describes it as a key-value store of coordinator
    records queryable by phone number; this is the query by phone number. *)
Definition findCoordinatorByPhone (phoneNumber : jsstring) (d : Db)
    : option Coordinator.t :=
  List.find (fun c => Coordinator.phoneNumber c === phoneNumber)
    (coordinators d).

(** Modelled from the spec: the query of the coordinator records by project
    name, of the store plugin that is not among the sources. *)
Definition findCoordinatorByProject (projectName : jsstring) (d : Db)
    : option Coordinator.t :=
  List.find (fun c => Coordinator.projectName c === projectName)
    (coordinators d).

(** Modelled from the spec: the store query, keyed by coordinator phone, for
    the project name bound to that coordinator. *)
Definition findProjectByCoordinatorPhone (phoneNumber : jsstring) (d : Db)
    : option jsstring :=
  Coordinator.projectName <$> findCoordinatorByPhone phoneNumber d.

(** Modelled from the spec: deleting by phone number leaves no coordinator
    record with that phone number. *)
Definition deleteCoordinatorByPhone (phoneNumber : jsstring) (d : Db) : Db :=
  mkDb (filter (fun c => Coordinator.phoneNumber c <> phoneNumber)
          (coordinators d))
       (members d).

(** Modelled from the spec: saving a coordinator persists the record under
    its [phoneNumber], the identity key: it overwrites the record stored for
    that phone number, or creates one. *)
Definition saveCoordinator (coordinator : Coordinator.t) (d : Db) : Db :=
  mkDb (upsert (fun c => Coordinator.phoneNumber c
                         === Coordinator.phoneNumber coordinator)
          coordinator (coordinators d))
       (members d).

(** Modelled from the spec: the query of the member records by phone
    number. *)
Definition findMemberByPhone (phoneNumber : jsstring) (d : Db)
    : option Member.t :=
  List.find (fun m => Member.phoneNumber m === phoneNumber) (members d).

(** Modelled from the spec: saving a member persists the record under its
    [phoneNumber], the identity key of member records. *)
Definition saveMember (member : Member.t) (d : Db) : Db :=
  mkDb (coordinators d)
       (upsert (fun m => Member.phoneNumber m === Member.phoneNumber member)
          member (members d)).

(** ** The world a handler runs in

    The handlers mutate the store and draw random bytes; both are threaded
    through explicitly.  [entropy] is the sequence of bytes the system's
    random source delivers and [drawn] how many of them have been used.
    What a handler only reads once per call, the clock and the registry's
    answer to [listProjects()], comes in an [Env]. *)

Record World : Type := mkWorld {
  db : Db;
  entropy : nat -> byte;
  drawn : nat
}.

Record Env : Type := mkEnv {
  now : jsstring;                    (* new Date().toISOString() *)
  listProjects : list Project.t      (* await fastify.comapeo.listProjects() *)
}.

Definition M (A : Type) : Type := World -> Completion A * World.

Definition ret {A : Type} (a : A) : M A := fun w => (Normal a, w).

Definition throw {A : Type} (e : Thrown) : M A := fun w => (Throw e, w).

Definition bind {A B : Type} (m : M A) (k : A -> M B) : M B :=
  fun w =>
    match m w with
    | (Normal a, w') => k a w'
    | (Throw e, w') => (Throw e, w')
    end.

Notation "x <- m ;; k" := (bind m (fun x => k))
  (at level 100, m at next level, k at level 200, right associativity).
Notation "m ;;; k" := (bind m (fun _ => k))
  (at level 100, k at level 200, right associativity).

Definition lift {A : Type} (c : Completion A) : M A := fun w => (c, w).

Definition query {A : Type} (f : Db -> A) : M A :=
  fun w => (Normal (f (db w)), w).

Definition update (f : Db -> Db) : M unit :=
  fun w => (Normal tt, mkWorld (f (db w)) (entropy w) (drawn w)).

(** [try { m } catch (err) { handler err }]. *)
Definition try_catch {A : Type} (m : M A) (handler : Thrown -> M A) : M A :=
  fun w =>
    match m w with
    | (Normal a, w') => (Normal a, w')
    | (Throw e, w') => handler e w'
    end.

(** ** Token generator: [crypto.randomBytes(32).toString('hex')] *)

Definition randomBytes (size : nat) : M (list byte) :=
  fun w =>
    (Normal (map (entropy w) (seq (drawn w) size)),
     mkWorld (db w) (entropy w) (drawn w + size)%nat).

Definition hex_digit (d : N) : N := if d <? 10 then 48 + d else 87 + d.

Definition toString_hex (bytes : list byte) : jsstring :=
  flat_map (fun b => [hex_digit (Byte.to_N b / 16);
                      hex_digit (Byte.to_N b mod 16)]) bytes.

Definition generateToken : M jsstring :=
  bytes <- randomBytes 32 ;;
  ret (toString_hex bytes).

(** ** Bearer authenticator *)

(** Modelled from the spec: [verifyBearerAuth] of routes/utils.js is not
    among the sources.  It compares the credential presented in the
    request's authorization header ([None] when the header carries none)
    with the expected token and fails with Unauthorized on a mismatch or an
    absent header. *)
Definition verifyBearerAuth (presented : option jsstring)
    (expectedToken : jsstring) : M unit :=
  if bool_decide (presented = Some expectedToken) then ret tt
  else throw (TypedError Unauthorized None).

(** ** The handlers

    Calls to [fastify.log] write to the logger only; they are left out. *)

Record Registration : Type := mkRegistration {
  registered_phoneNumber : jsstring;
  registered_projectName : jsstring
}.

Record Credential : Type := mkCredential {
  issued_token : jsstring;
  issued_projectName : jsstring
}.

Definition find_project (projectName : jsstring) (projects : list Project.t)
    : option Project.t :=
  List.find (fun p => Project.name p === projectName) projects.

(** POST /auth/register *)
Definition register (env : Env) (phoneNumber projectName : jsstring)
    : M Registration :=
  decodedProjectName <- lift (decodeURIComponent projectName) ;;
  existingCoordinator <- query (findCoordinatorByPhone phoneNumber) ;;
  match existingCoordinator with
  | Some _ => update (deleteCoordinatorByPhone phoneNumber)
  | None => ret tt
  end ;;;
  existingProjectCoordinator <-
    query (findCoordinatorByProject decodedProjectName) ;;
  match existingProjectCoordinator with
  | Some _ => throw (conflictError "Project name already exists")
  | None =>
      let projects := listProjects env in
      let existingProject := find_project decodedProjectName projects in
      match existingProject with
      | Some _ => throw (conflictError "Project name already exists")
      | None =>
          let coordinator :=
            Coordinator.mk phoneNumber decodedProjectName None (now env) in
          update (saveCoordinator coordinator) ;;;
          ret (mkRegistration (Coordinator.phoneNumber coordinator)
                 (Coordinator.projectName coordinator))
      end
  end.

(** DELETE /auth/unregister *)
Definition unregister (phoneNumber : jsstring) : M string :=
  coordinator <- query (findCoordinatorByPhone phoneNumber) ;;
  match coordinator with
  | None => throw (notFoundError "Coordinator not found")
  | Some _ =>
      update (deleteCoordinatorByPhone phoneNumber) ;;;
      ret "Coordinator successfully unregistered"%string
  end.

(** POST /auth/coordinator *)
Definition login (env : Env) (phoneNumber projectName : jsstring)
    : M Credential :=
  found <- query (findCoordinatorByPhone phoneNumber) ;;
  match found with
  | None => throw (unauthorizedError "Invalid phone number or project name")
  | Some coordinator =>
      if negb (Coordinator.projectName coordinator === projectName)
      then throw (unauthorizedError "Invalid phone number or project name")
      else
        decodedProjectName <-
          lift (decodeURIComponent (Coordinator.projectName coordinator)) ;;
        let projects := listProjects env in
        match find_project decodedProjectName projects with
        | None => throw projectNotFoundError
        | Some project =>
            token <- generateToken ;;
            update (saveCoordinator
                      (Coordinator.mk
                         (Coordinator.phoneNumber coordinator)
                         (Coordinator.projectName coordinator)
                         (Some token)
                         (now env))) ;;;
            ret (mkCredential token (Coordinator.projectName coordinator))
        end
  end.

(** POST /auth/member; [authorization] is the credential the request
    presents. *)
Definition delegateMember (env : Env) (authorization : option jsstring)
    (coordPhoneNumber memberPhoneNumber : jsstring) : M Credential :=
  try_catch
    (found <- query (findCoordinatorByPhone coordPhoneNumber) ;;
     match found with
     | None => throw (unauthorizedError "Invalid coordinator phone number")
     | Some coordinator =>
         match truthy (Coordinator.token coordinator) with
         | None =>
             throw (unauthorizedError "Invalid coordinator phone number")
         | Some coordinator_token =>
             found_name <-
               query (findProjectByCoordinatorPhone coordPhoneNumber) ;;
             match truthy found_name with
             | None =>
                 throw (unauthorizedError "No project found for coordinator")
             | Some projectName =>
                 verifyBearerAuth authorization coordinator_token ;;;
                 if negb (test phone_pattern memberPhoneNumber)
                 then throw (badRequestError "Invalid phone number format")
                 else
                   existingMember <-
                     query (findMemberByPhone memberPhoneNumber) ;;
                   match existingMember with
                   | Some _ =>
                       throw (badRequestError
                                "Phone number already registered")
                   | None =>
                       memberToken <- generateToken ;;
                       update (saveMember
                                 (Member.mk memberPhoneNumber memberToken
                                    (Coordinator.phoneNumber coordinator)
                                    projectName
                                    (now env))) ;;;
                       ret (mkCredential memberToken projectName)
                   end
             end
         end
     end)
    (fun err => throw err).

(** ** The routes

    [authRoutes] mounts the handlers; the first three sit behind a
    pre-handler that checks the server's bearer token. *)

Inductive Request : Type :=
| POST_auth_register (authorization : option jsstring)
    (phoneNumber projectName : jsstring)
| DELETE_auth_unregister (authorization : option jsstring)
    (phoneNumber : jsstring)
| POST_auth_coordinator (authorization : option jsstring)
    (phoneNumber projectName : jsstring)
| POST_auth_member (authorization : option jsstring)
    (coordPhoneNumber memberPhoneNumber : jsstring).

(** The world a request leaves behind. *)
Definition authRoutes (serverBearerToken : jsstring) (env : Env)
    (req : Request) (w : World) : World :=
  match req with
  | POST_auth_register authorization phoneNumber projectName =>
      snd ((verifyBearerAuth authorization serverBearerToken ;;;
            register env phoneNumber projectName) w)
  | DELETE_auth_unregister authorization phoneNumber =>
      snd ((verifyBearerAuth authorization serverBearerToken ;;;
            unregister phoneNumber) w)
  | POST_auth_coordinator authorization phoneNumber projectName =>
      snd ((verifyBearerAuth authorization serverBearerToken ;;;
            login env phoneNumber projectName) w)
  | POST_auth_member authorization coordPhoneNumber memberPhoneNumber =>
      snd (delegateMember env authorization coordPhoneNumber
             memberPhoneNumber w)
  end.

(** A server starts on an empty store and serves requests one after the
    other, each under the clock and the registry of its moment. *)
Definition start (entropy : nat -> byte) : World :=
  mkWorld (mkDb [] []) entropy 0.

Definition serve (serverBearerToken : jsstring)
    (requests : list (Env * Request)) (w : World) : World :=
  fold_left (fun w' er => authRoutes serverBearerToken (fst er) (snd er) w')
    requests w.

(** ** Vocabulary of the statements *)

Definition fails_with {A : Type} (k : ErrorKind) (c : Completion A) : Prop :=
  exists message, c = Throw (TypedError k message).

Definition coordinators_of (phoneNumber : jsstring) (d : Db)
    : list Coordinator.t :=
  filter (fun c => Coordinator.phoneNumber c = phoneNumber) (coordinators d).

Definition unique_phones (d : Db) : Prop :=
  NoDup (Coordinator.phoneNumber <$> coordinators d).

Definition unique_projects (d : Db) : Prop :=
  NoDup (Coordinator.projectName <$> coordinators d).

(** A string in which every [%] starts an escape [%XX]. *)
Inductive well_escaped : jsstring -> Prop :=
| well_escaped_nil : well_escaped []
| well_escaped_char C s :
    C <> PERCENT -> well_escaped s -> well_escaped (C :: s)
| well_escaped_escape h1 h2 s :
    is_Some (ParseHexOctet h1 h2) -> well_escaped s ->
    well_escaped (PERCENT :: h1 :: h2 :: s).

(** A string that contains a [%] not starting an escape [%XX]. *)
Definition stray_percent (s : jsstring) : Prop :=
  exists before after,
    s = before ++ PERCENT :: after
    /\ ~ exists h1 h2 rest,
           after = h1 :: h2 :: rest /\ is_Some (ParseHexOctet h1 h2).

(** The continuation at the end of [phone_pattern]: the assertion [$]. *)
Definition at_end : MatchState -> bool :=
  fun y => CompileSubpattern AssertEnd y (fun _ => true).

(** The words of the spec for a member phone number: an optional [+], a
    first digit 1-9, then 1 to 14 further digits. *)
Definition is_digit (c : N) : Prop := 48 <= c <= 57.

Definition e164_like (s : jsstring) : Prop :=
  exists first further,
    (s = first :: further \/ s = PLUS :: first :: further)
    /\ 49 <= first <= 57
    /\ Forall is_digit further
    /\ (1 <= length further <= 14)%nat.

Definition with_db (w : World) (d : Db) : World :=
  mkWorld d (entropy w) (drawn w).

(** The token the next call of [generateToken] returns. *)
Definition next_token (w : World) : jsstring :=
  toString_hex (map (entropy w) (seq (drawn w) 32)).

(** ** A sample run

    A server whose coordinator +15550001111 registers the project Field1,
    logs in once the registry lists it, and delegates to the member
    +15551234567. *)

Definition sample_bytes : list byte :=
  Eval vm_compute in omap Byte.of_nat (seq 17 64).

Definition sample_entropy : nat -> byte := fun i => nth i sample_bytes x00.

Definition server_token : jsstring := str "server-secret".
Definition coordinator_phone : jsstring := str "+15550001111".
Definition member_phone : jsstring := str "+15551234567".

Definition before_creation : Env :=
  mkEnv (str "2024-05-01T09:00:00.000Z") [].

Definition after_creation : Env :=
  mkEnv (str "2024-05-02T09:00:00.000Z") [Project.mk (str "Field1")].

Definition registered_world : World :=
  serve server_token
    [(before_creation,
      POST_auth_register (Some server_token) coordinator_phone
        (str "Field1"))]
    (start sample_entropy).

Definition coordinator_token : jsstring := next_token registered_world.

Definition logged_in_world : World :=
  serve server_token
    [(after_creation,
      POST_auth_coordinator (Some server_token) coordinator_phone
        (str "Field1"))]
    registered_world.

Definition delegated_world : World :=
  serve server_token
    [(after_creation,
      POST_auth_member (Some coordinator_token) coordinator_phone
        member_phone)]
    logged_in_world.

(** ** Further vocabulary *)

(** The shape of a token: 64 lowercase hexadecimal digits. *)
Definition is_lower_hex (c : N) : Prop := 48 <= c <= 57 \/ 97 <= c <= 102.

Definition is_token (t : jsstring) : Prop :=
  length t = 64%nat /\ Forall is_lower_hex t.

Definition stored_tokens_ok (d : Db) : Prop :=
  forall c t,
    c ∈ coordinators d -> Coordinator.token c = Some t -> is_token t.

Definition member_ok (m : Member.t) : Prop :=
  e164_like (Member.phoneNumber m)
  /\ is_token (Member.token m)
  /\ Member.projectName m <> [].

(** The credential a request presents, the coordinator phone number it is
    about, and whether its route sits behind the server's bearer token. *)
Definition authorization_of (req : Request) : option jsstring :=
  match req with
  | POST_auth_register a _ _ => a
  | DELETE_auth_unregister a _ => a
  | POST_auth_coordinator a _ _ => a
  | POST_auth_member a _ _ => a
  end.

Definition coordinator_of (req : Request) : jsstring :=
  match req with
  | POST_auth_register _ P _ => P
  | DELETE_auth_unregister _ P => P
  | POST_auth_coordinator _ P _ => P
  | POST_auth_member _ C _ => C
  end.

Definition behind_server_token (req : Request) : bool :=
  match req with
  | POST_auth_member _ _ _ => false
  | _ => true
  end.

(** A coordinator bound to the project with the empty name, logged in once
    the registry lists a project of that name. *)
Definition nameless_listed : Env :=
  mkEnv (str "2024-05-03T09:00:00.000Z") [Project.mk []].

Definition nameless_world : World :=
  serve server_token
    [(before_creation,
      POST_auth_register (Some server_token) coordinator_phone []);
     (nameless_listed,
      POST_auth_coordinator (Some server_token) coordinator_phone [])]
    (start sample_entropy).

(** ** The decoder *)

Lemma with_escape_inv {A : Type} (s : jsstring) (t : A) k :
  with_escape s t k = t \/
  exists h1 h2 rest B,
    s = PERCENT :: h1 :: h2 :: rest /\ ParseHexOctet h1 h2 = Some B
    /\ with_escape s t k = k B rest.
Proof.
  destruct s as [|c [|h1 [|h2 rest]]]; simpl; try by left.
  destruct (N.eqb_spec c PERCENT) as [->|]; [|by left].
  destruct (ParseHexOctet h1 h2) as [B|] eqn:HB; [|by left].
  right. by exists h1, h2, rest, B.
Qed.

Lemma append_to_Throw S R e : append_to S R = Throw e -> R = Throw e.
Proof. by destruct R; simpl; intros [=->]. Qed.

Lemma decoded_Throw Octets R e :
  decoded Octets R = Throw e -> e = URIError \/ R = Throw e.
Proof.
  unfold decoded. destruct (utf8_code_point Octets).
  - intros H%append_to_Throw. by right.
  - intros [=<-]. by left.
Qed.

Lemma decodeURIComponent_cons C s :
  decodeURIComponent (C :: s) =
  if negb (C =? PERCENT) then append_to [C] (decodeURIComponent s)
  else
    with_escape (C :: s) (Throw URIError) (fun B s1 =>
      match leading_ones B with
      | 0%nat => append_to [B] (decodeURIComponent s1)
      | 2%nat =>
          with_escape s1 (Throw URIError) (fun b1 s2 =>
            decoded [B; b1] (decodeURIComponent s2))
      | 3%nat =>
          with_escape s1 (Throw URIError) (fun b1 s2 =>
            with_escape s2 (Throw URIError) (fun b2 s3 =>
              decoded [B; b1; b2] (decodeURIComponent s3)))
      | 4%nat =>
          with_escape s1 (Throw URIError) (fun b1 s2 =>
            with_escape s2 (Throw URIError) (fun b2 s3 =>
              with_escape s3 (Throw URIError) (fun b3 s4 =>
                decoded [B; b1; b2; b3] (decodeURIComponent s4))))
      | _ => Throw URIError
      end).
Proof. reflexivity. Qed.

Lemma decoded_cases Octets R :
  decoded Octets R = Throw URIError
  \/ exists S, decoded Octets R = append_to S R.
Proof.
  unfold decoded. destruct (utf8_code_point Octets) as [V|]; [|by left].
  right. by eexists.
Qed.

Ltac escape_cases h1 h2 rest B HB :=
  match goal with
  | |- context [with_escape ?s ?t ?k] =>
      destruct (with_escape_inv s t k)
        as [->|(h1 & h2 & rest & B & -> & HB & ->)];
      [by left|cbv beta]
  end.

(** One round of the decoder: it throws, or it consumes a character or a
    group of escapes and goes on with the rest. *)
Lemma decodeURIComponent_step C s :
  decodeURIComponent (C :: s) = Throw URIError
  \/ exists consumed rest S,
       C :: s = consumed ++ rest
       /\ (0 < length consumed)%nat
       /\ well_escaped consumed
       /\ decodeURIComponent (C :: s)
          = append_to S (decodeURIComponent rest).
Proof.
  rewrite decodeURIComponent_cons.
  destruct (N.eqb_spec C PERCENT) as [->|HC]; simpl negb; cbv iota.
  2:{ right. exists [C], s, [C]. repeat split; [simpl; lia|].
      by repeat constructor. }
  destruct (with_escape_inv (PERCENT :: s) (Throw URIError) (fun B s1 =>
      match leading_ones B with
      | 0%nat => append_to [B] (decodeURIComponent s1)
      | 2%nat =>
          with_escape s1 (Throw URIError) (fun b1 s2 =>
            decoded [B; b1] (decodeURIComponent s2))
      | 3%nat =>
          with_escape s1 (Throw URIError) (fun b1 s2 =>
            with_escape s2 (Throw URIError) (fun b2 s3 =>
              decoded [B; b1; b2] (decodeURIComponent s3)))
      | 4%nat =>
          with_escape s1 (Throw URIError) (fun b1 s2 =>
            with_escape s2 (Throw URIError) (fun b2 s3 =>
              with_escape s3 (Throw URIError) (fun b3 s4 =>
                decoded [B; b1; b2; b3] (decodeURIComponent s4))))
      | _ => Throw URIError
      end)) as [->|(h1 & h2 & s1 & B & [= ->] & HB & ->)]; [by left|].
  assert (is_Some (ParseHexOctet h1 h2)) as HB' by (by rewrite HB).
  destruct (leading_ones B) as [|[|[|[|[|?]]]]]; try by left.
  - right. exists [PERCENT; h1; h2], s1, [B].
    repeat split; [simpl; lia|]. by repeat constructor.
  - escape_cases a1 a2 s2 b1 Hb1.
    assert (is_Some (ParseHexOctet a1 a2)) by (by rewrite Hb1).
    destruct (decoded_cases [B; b1] (decodeURIComponent s2))
      as [->|[S ->]]; [by left|].
    right. exists [PERCENT; h1; h2; PERCENT; a1; a2], s2, S.
    repeat split; [simpl; lia|]. by repeat constructor.
  - escape_cases a1 a2 s2 b1 Hb1. escape_cases c1 c2 s3 b2 Hb2.
    assert (is_Some (ParseHexOctet a1 a2)) by (by rewrite Hb1).
    assert (is_Some (ParseHexOctet c1 c2)) by (by rewrite Hb2).
    destruct (decoded_cases [B; b1; b2] (decodeURIComponent s3))
      as [->|[S ->]]; [by left|].
    right. exists [PERCENT; h1; h2; PERCENT; a1; a2; PERCENT; c1; c2], s3, S.
    repeat split; [simpl; lia|]. by repeat constructor.
  - escape_cases a1 a2 s2 b1 Hb1. escape_cases c1 c2 s3 b2 Hb2.
    escape_cases d1 d2 s4 b3 Hb3.
    assert (is_Some (ParseHexOctet a1 a2)) by (by rewrite Hb1).
    assert (is_Some (ParseHexOctet c1 c2)) by (by rewrite Hb2).
    assert (is_Some (ParseHexOctet d1 d2)) by (by rewrite Hb3).
    destruct (decoded_cases [B; b1; b2; b3] (decodeURIComponent s4))
      as [->|[S ->]]; [by left|].
    right.
    exists [PERCENT; h1; h2; PERCENT; a1; a2; PERCENT; c1; c2;
            PERCENT; d1; d2], s4, S.
    repeat split; [simpl; lia|]. by repeat constructor.
Qed.

(** Induction along the rounds of the decoder. *)
Lemma decoder_rounds (Q : jsstring -> Prop) :
  Q [] ->
  (forall consumed rest,
     (0 < length consumed)%nat -> well_escaped consumed ->
     Q rest -> Q (consumed ++ rest)) ->
  forall s, decodeURIComponent s = Throw URIError \/ Q s.
Proof.
  intros Hnil Hround s.
  remember (length s) as n eqn:Hn. revert s Hn.
  induction n as [n IH] using lt_wf_ind. intros s Hn.
  destruct s as [|C s]; [by right|].
  destruct (decodeURIComponent_step C s)
    as [?|(consumed & rest & S & Hs & Hlen & Hok & Hrun)]; [by left|].
  destruct (IH (length rest)) with (s := rest) as [Hrest|Hrest]; [|done| |].
  - rewrite Hn, Hs, length_app. lia.
  - left. by rewrite Hrun, Hrest.
  - right. rewrite Hs. by apply Hround.
Qed.

(** The decoder throws nothing but [URIError]. *)
Lemma decodeURIComponent_throws s e :
  decodeURIComponent s = Throw e -> e = URIError.
Proof.
  remember (length s) as n eqn:Hn. revert s Hn.
  induction n as [n IH] using lt_wf_ind. intros s Hn.
  destruct s as [|C s]; [done|].
  destruct (decodeURIComponent_step C s)
    as [->|(consumed & rest & S & Hs & Hlen & Hok & ->)]; [by intros [=]|].
  intros Hrest%append_to_Throw. apply (IH (length rest)) with (s := rest).
  - rewrite Hn, Hs, length_app. lia.
  - done.
  - done.
Qed.

Lemma ParseHexOctet_not_percent h1 h2 :
  is_Some (ParseHexOctet h1 h2) -> h1 <> PERCENT /\ h2 <> PERCENT.
Proof.
  intros [B HB]. unfold ParseHexOctet in HB.
  split; intros ->; simpl in HB; [done|].
  by destruct (hex_digit_value h1).
Qed.

Lemma stray_percent_tail C s :
  C <> PERCENT -> stray_percent (C :: s) -> stray_percent s.
Proof.
  intros HC (before & after & Hs & Hafter).
  destruct before as [|C' before]; simpl in Hs; [congruence|].
  injection Hs as -> ->. by exists before, after.
Qed.

Lemma stray_percent_after_escape h1 h2 s :
  is_Some (ParseHexOctet h1 h2) ->
  stray_percent (PERCENT :: h1 :: h2 :: s) -> stray_percent s.
Proof.
  intros Hhex (before & after & Hs & Hafter).
  destruct (ParseHexOctet_not_percent h1 h2 Hhex) as [Hh1 Hh2].
  destruct before as [|? [|? [|? before]]]; simpl in Hs.
  - injection Hs as <-. destruct Hafter. by exists h1, h2, s.
  - congruence.
  - congruence.
  - injection Hs as _ _ _ ->. by exists before, after.
Qed.

Lemma stray_percent_rest consumed rest :
  well_escaped consumed ->
  stray_percent (consumed ++ rest) -> stray_percent rest.
Proof.
  induction 1 as [|C s HC _ IH|h1 h2 s Hhex _ IH]; simpl; [done| |].
  - intros Hs%stray_percent_tail; [by apply IH | done].
  - intros Hs%stray_percent_after_escape; [by apply IH | done].
Qed.

(** A string with a [%] that starts no escape cannot be decoded. *)
Lemma stray_percent_throws s :
  stray_percent s -> decodeURIComponent s = Throw URIError.
Proof.
  destruct (decoder_rounds (fun s => ~ stray_percent s)) with (s := s)
    as [?|?]; [| |done|done].
  - intros ([|? ?] & after & [=] & _).
  - intros consumed rest _ Hok Hrest Hs. apply Hrest.
    by apply (stray_percent_rest consumed).
Qed.

(** ** The store *)

Section Upsert.
Context {A : Type} (same : A -> bool).

Lemma upsert_absent (x : A) (l : list A) :
  List.find same l = None -> upsert same x l = l ++ [x].
Proof.
  induction l as [|y l IH]; simpl; [done|].
  destruct (same y); [done|]. intros H. by rewrite IH.
Qed.

Lemma upsert_present {B : Type} (f : A -> B) (x y : A) (l : list A) :
  List.find same l = Some y -> f x = f y ->
  f <$> upsert same x l = f <$> l.
Proof.
  intros Hfind Hf. induction l as [|z l IH]; simpl in *; [done|].
  destruct (same z).
  - injection Hfind as ->. by rewrite !fmap_cons, Hf.
  - by rewrite !fmap_cons, IH.
Qed.

Lemma upsert_length (x y : A) (l : list A) :
  List.find same l = Some y -> length (upsert same x l) = length l.
Proof.
  revert y. induction l as [|z l IH]; simpl; [done|].
  intros y. destruct (same z); simpl; [done|]. intros H. by rewrite (IH y).
Qed.

Lemma find_upsert_same (x : A) (l : list A) :
  same x = true -> List.find same (upsert same x l) = Some x.
Proof.
  intros Hx. induction l as [|z l IH]; simpl.
  - by rewrite Hx.
  - destruct (same z) eqn:Hz; simpl; [by rewrite Hx | by rewrite Hz].
Qed.

Lemma find_upsert_other (other : A -> bool) (x : A) (l : list A) :
  other x = false ->
  (forall y, same y = true -> other y = false) ->
  List.find other (upsert same x l) = List.find other l.
Proof.
  intros Hx Hsame. induction l as [|z l IH]; simpl.
  - by rewrite Hx.
  - destruct (same z) eqn:Hz; simpl.
    + by rewrite Hx, (Hsame z Hz).
    + by rewrite IH.
Qed.

End Upsert.

Lemma find_Some_elem {A : Type} (f : A -> bool) (l : list A) (x : A) :
  List.find f l = Some x -> x ∈ l /\ f x = true.
Proof.
  intros H. apply find_some in H as [Hin Hf]. by rewrite list_elem_of_In.
Qed.

Lemma find_None_elem {A : Type} (f : A -> bool) (l : list A) :
  List.find f l = None <-> forall x, x ∈ l -> f x = false.
Proof.
  split.
  - intros H x Hx. apply (find_none f l H). by rewrite <- list_elem_of_In.
  - induction l as [|y l IH]; simpl; [done|]. intros H.
    rewrite (H y) by left. apply IH. intros x Hx. apply H. by right.
Qed.

Lemma strict_eq_true (a b : jsstring) : (a === b) = true <-> a = b.
Proof. unfold strict_eq. apply bool_decide_eq_true. Qed.

Lemma strict_eq_false (a b : jsstring) : (a === b) = false <-> a <> b.
Proof. unfold strict_eq. apply bool_decide_eq_false. Qed.

Lemma strict_eq_refl (a : jsstring) : (a === a) = true.
Proof. by apply strict_eq_true. Qed.

Lemma findCoordinatorByPhone_Some p d c :
  findCoordinatorByPhone p d = Some c ->
  c ∈ coordinators d /\ Coordinator.phoneNumber c = p.
Proof.
  intros H. apply find_Some_elem in H as [Hin H].
  by apply strict_eq_true in H.
Qed.

Lemma findCoordinatorByPhone_None p d :
  findCoordinatorByPhone p d = None <->
  forall c, c ∈ coordinators d -> Coordinator.phoneNumber c <> p.
Proof.
  unfold findCoordinatorByPhone. rewrite find_None_elem.
  by setoid_rewrite strict_eq_false.
Qed.

Lemma findCoordinatorByProject_None n d :
  findCoordinatorByProject n d = None <->
  forall c, c ∈ coordinators d -> Coordinator.projectName c <> n.
Proof.
  unfold findCoordinatorByProject. rewrite find_None_elem.
  by setoid_rewrite strict_eq_false.
Qed.

Lemma findCoordinatorByProject_Some n d c :
  findCoordinatorByProject n d = Some c ->
  c ∈ coordinators d /\ Coordinator.projectName c = n.
Proof.
  intros H. apply find_Some_elem in H as [Hin H].
  by apply strict_eq_true in H.
Qed.

Lemma find_project_None n projects :
  find_project n projects = None <->
  forall p, p ∈ projects -> Project.name p <> n.
Proof.
  unfold find_project. rewrite find_None_elem.
  by setoid_rewrite strict_eq_false.
Qed.

Lemma find_project_Some n projects p :
  find_project n projects = Some p -> p ∈ projects /\ Project.name p = n.
Proof.
  intros H. apply find_Some_elem in H as [Hin H].
  by apply strict_eq_true in H.
Qed.

Lemma elem_of_deleteCoordinatorByPhone p d c :
  c ∈ coordinators (deleteCoordinatorByPhone p d) <->
  Coordinator.phoneNumber c <> p /\ c ∈ coordinators d.
Proof. unfold deleteCoordinatorByPhone; simpl. by rewrite list_elem_of_filter. Qed.

Lemma findCoordinatorByPhone_delete p d :
  findCoordinatorByPhone p (deleteCoordinatorByPhone p d) = None.
Proof.
  apply findCoordinatorByPhone_None. intros c Hc.
  by apply elem_of_deleteCoordinatorByPhone in Hc as [? _].
Qed.

Lemma deleteCoordinatorByPhone_absent p d :
  findCoordinatorByPhone p d = None -> deleteCoordinatorByPhone p d = d.
Proof.
  rewrite findCoordinatorByPhone_None. intros H.
  destruct d as [cs ms]; unfold deleteCoordinatorByPhone; simpl in *. f_equal.
  induction cs as [|c cs IH]; [done|].
  rewrite filter_cons_True by (apply H; left).
  f_equal. apply IH. intros c' Hc'. apply H. by right.
Qed.

Lemma coordinators_of_delete p d :
  coordinators_of p (deleteCoordinatorByPhone p d) = [].
Proof.
  unfold coordinators_of, deleteCoordinatorByPhone; simpl.
  induction (coordinators d) as [|c cs IH]; [done|].
  destruct (decide (Coordinator.phoneNumber c = p)) as [Heq|Hne].
  - by rewrite filter_cons_False by tauto.
  - rewrite filter_cons_True by done. by rewrite filter_cons_False.
Qed.

Lemma NoDup_fmap_filter {A B : Type} (f : A -> B) (P : A -> Prop)
    `{!forall x, Decision (P x)} (l : list A) :
  NoDup (f <$> l) -> NoDup (f <$> filter P l).
Proof.
  induction l as [|x l IH]; [done|].
  intros Hxl. rewrite fmap_cons in Hxl. apply list.NoDup_cons in Hxl as [Hx Hl].
  destruct (decide (P x)).
  - rewrite filter_cons_True, fmap_cons, list.NoDup_cons by done.
    split; [|by apply IH]. intros Hin. apply Hx.
    apply list_elem_of_fmap in Hin as (y & -> & Hy).
    apply list_elem_of_filter in Hy as [_ Hy]. by apply list_elem_of_fmap_2.
  - rewrite filter_cons_False by done. by apply IH.
Qed.

Lemma NoDup_fmap_snoc {A B : Type} (f : A -> B) (l : list A) (x : A) :
  NoDup (f <$> l) -> (forall y, y ∈ l -> f y <> f x) ->
  NoDup (f <$> (l ++ [x])).
Proof.
  intros Hl Hx. rewrite fmap_app. apply list.NoDup_app. split; [done|]. split.
  - intros b Hb Hb'. apply list_elem_of_fmap in Hb as (y & -> & Hy).
    apply list_elem_of_singleton in Hb'. by apply (Hx y).
  - apply NoDup_singleton.
Qed.

Lemma NoDup_fmap_eq {A B : Type} (f : A -> B) (l : list A) (x y : A) :
  NoDup (f <$> l) -> x ∈ l -> y ∈ l -> f x = f y -> x = y.
Proof.
  induction l as [|z l IH]; [by intros _ ?%elem_of_nil|].
  intros Hzl Hx Hy Hf. rewrite fmap_cons in Hzl.
  apply list.NoDup_cons in Hzl as [Hz Hl].
  apply elem_of_cons in Hx as [->|Hx]; apply elem_of_cons in Hy as [->|Hy].
  - done.
  - destruct Hz. rewrite Hf. by apply list_elem_of_fmap_2.
  - destruct Hz. rewrite <- Hf. by apply list_elem_of_fmap_2.
  - by apply IH.
Qed.

(** ** What each handler computes *)

Ltac unfold_M :=
  unfold bind, lift, query, update, ret, throw, try_catch, generateToken,
    randomBytes, verifyBearerAuth, with_db, next_token in *.

Lemma register_run env P N w :
  register env P N w =
  match decodeURIComponent N with
  | Throw e => (Throw e, w)
  | Normal D =>
      let remaining := deleteCoordinatorByPhone P (db w) in
      match findCoordinatorByProject D remaining,
            find_project D (listProjects env) with
      | None, None =>
          (Normal (mkRegistration P D),
           with_db w (saveCoordinator (Coordinator.mk P D None (now env))
                        remaining))
      | _, _ =>
          (Throw (conflictError "Project name already exists"),
           with_db w remaining)
      end
  end.
Proof.
  destruct w as [d en dr]. unfold register. unfold_M. simpl.
  destruct (decodeURIComponent N) as [D|e]; [|done].
  destruct (findCoordinatorByPhone P d) eqn:HP; simpl.
  - destruct (findCoordinatorByProject D _); [done|].
    by destruct (find_project D _).
  - rewrite (deleteCoordinatorByPhone_absent P d HP).
    destruct (findCoordinatorByProject D _); [done|].
    by destruct (find_project D _).
Qed.

Lemma unregister_run P w :
  unregister P w =
  match findCoordinatorByPhone P (db w) with
  | None => (Throw (notFoundError "Coordinator not found"), w)
  | Some _ =>
      (Normal "Coordinator successfully unregistered"%string,
       with_db w (deleteCoordinatorByPhone P (db w)))
  end.
Proof.
  unfold unregister. unfold_M.
  by destruct (findCoordinatorByPhone P (db w)).
Qed.

Lemma login_run env P N w :
  login env P N w =
  match findCoordinatorByPhone P (db w) with
  | None =>
      (Throw (unauthorizedError "Invalid phone number or project name"), w)
  | Some c =>
      if Coordinator.projectName c === N then
        match decodeURIComponent (Coordinator.projectName c) with
        | Throw e => (Throw e, w)
        | Normal D =>
            match find_project D (listProjects env) with
            | None => (Throw projectNotFoundError, w)
            | Some _ =>
                (Normal (mkCredential (next_token w)
                           (Coordinator.projectName c)),
                 mkWorld
                   (saveCoordinator
                      (Coordinator.mk (Coordinator.phoneNumber c)
                         (Coordinator.projectName c)
                         (Some (next_token w)) (now env))
                      (db w))
                   (entropy w) (drawn w + 32)%nat)
            end
        end
      else
        (Throw (unauthorizedError "Invalid phone number or project name"), w)
  end.
Proof.
  unfold login. unfold_M.
  destruct (findCoordinatorByPhone P (db w)) as [c|]; [|done].
  destruct (Coordinator.projectName c === N); simpl; [|done].
  destruct (decodeURIComponent _) as [D|e]; [|done].
  by destruct (find_project D _).
Qed.

Lemma delegateMember_run env authorization C Mb w :
  delegateMember env authorization C Mb w =
  match findCoordinatorByPhone C (db w) with
  | None => (Throw (unauthorizedError "Invalid coordinator phone number"), w)
  | Some c =>
      match truthy (Coordinator.token c) with
      | None =>
          (Throw (unauthorizedError "Invalid coordinator phone number"), w)
      | Some T =>
          match truthy (findProjectByCoordinatorPhone C (db w)) with
          | None =>
              (Throw (unauthorizedError "No project found for coordinator"),
               w)
          | Some name =>
              if bool_decide (authorization = Some T) then
                if test phone_pattern Mb then
                  match findMemberByPhone Mb (db w) with
                  | Some _ =>
                      (Throw (badRequestError
                                "Phone number already registered"), w)
                  | None =>
                      (Normal (mkCredential (next_token w) name),
                       mkWorld
                         (saveMember
                            (Member.mk Mb (next_token w)
                               (Coordinator.phoneNumber c) name (now env))
                            (db w))
                         (entropy w) (drawn w + 32)%nat)
                  end
                else
                  (Throw (badRequestError "Invalid phone number format"), w)
              else (Throw (TypedError Unauthorized None), w)
          end
      end
  end.
Proof.
  unfold delegateMember. unfold_M.
  destruct (findCoordinatorByPhone C (db w)) as [c|]; [|done].
  destruct (truthy (Coordinator.token c)) as [T|]; [|done].
  destruct (truthy (findProjectByCoordinatorPhone C (db w))); [|done].
  destruct (bool_decide (authorization = Some T)); [|done].
  destruct (test phone_pattern Mb); simpl; [|done].
  by destruct (findMemberByPhone Mb (db w)).
Qed.

(** ** Registration *)

Lemma own_name_free P D d c :
  unique_projects d ->
  findCoordinatorByPhone P d = Some c ->
  Coordinator.projectName c = D ->
  findCoordinatorByProject D (deleteCoordinatorByPhone P d) = None.
Proof.
  intros Hu HP HD. apply findCoordinatorByProject_None. intros c' Hc' Hname.
  apply elem_of_deleteCoordinatorByPhone in Hc' as [Hne Hc'].
  apply findCoordinatorByPhone_Some in HP as [Hc HcP].
  assert (c' = c) as ->; [|done].
  apply (NoDup_fmap_eq Coordinator.projectName (coordinators d)); try done.
  congruence.
Qed.

Lemma coordinators_of_save_fresh P c d :
  Coordinator.phoneNumber c = P ->
  findCoordinatorByPhone P d = None ->
  coordinators (saveCoordinator c d) = coordinators d ++ [c]
  /\ coordinators_of P (saveCoordinator c d) = coordinators_of P d ++ [c].
Proof.
  intros Hc HP. unfold saveCoordinator, coordinators_of; simpl.
  rewrite upsert_absent by (by rewrite Hc). split; [done|].
  rewrite list.filter_app. f_equal. by rewrite filter_cons_True, filter_nil.
Qed.

(** C1, as amended: for a phone number [P] already bound to a project and a
    name [N] that decodes to [D], [register] removes the record of [P],
    with any token it holds, before the conflict check, so that record never
    causes a Conflict.  When no listed project bears [D] and either [D] is
    the name [P] itself holds (names being unique in the store) or no
    remaining coordinator holds [D], the call succeeds, and afterwards
    exactly one coordinator record exists for [P]: bound to [D], without
    token, created now. *)
Theorem register_rebinds_phone env P N D w c :
  findCoordinatorByPhone P (db w) = Some c ->
  decodeURIComponent N = Normal D ->
  find_project D (listProjects env) = None ->
  (Coordinator.projectName c = D /\ unique_projects (db w))
  \/ findCoordinatorByProject D (deleteCoordinatorByPhone P (db w)) = None ->
  let fresh := Coordinator.mk P D None (now env) in
  let w' := snd (register env P N w) in
  fst (register env P N w) = Normal (mkRegistration P D)
  /\ coordinators_of P (db w') = [fresh]
  /\ coordinators (db w')
     = coordinators (deleteCoordinatorByPhone P (db w)) ++ [fresh]
  /\ c ∉ coordinators (deleteCoordinatorByPhone P (db w)).
Proof.
  intros HP HN Hreg Hfree. cbv zeta.
  assert (findCoordinatorByProject D (deleteCoordinatorByPhone P (db w))
          = None) as Hrem.
  { destruct Hfree as [[Hown Hu]|Hrem]; [|done].
    by apply (own_name_free P D (db w) c). }
  rewrite register_run, HN. cbv zeta. rewrite Hrem, Hreg.
  unfold with_db. cbn [fst snd db].
  destruct (coordinators_of_save_fresh P (Coordinator.mk P D None (now env))
              (deleteCoordinatorByPhone P (db w)) eq_refl
              (findCoordinatorByPhone_delete P (db w))) as [Hall Hof].
  rewrite Hof, Hall, coordinators_of_delete. repeat split; try done.
  intros Hc. apply elem_of_deleteCoordinatorByPhone in Hc as [Hne _].
  by apply findCoordinatorByPhone_Some in HP as [_ ?].
Qed.

(** C3: [register] fails with Conflict exactly when the name decodes and,
    the record of [P] set aside, a stored coordinator or a listed project
    holds the decoded name; the failed call leaves the store with the record
    of [P] deleted. *)
Theorem register_conflict env P N w :
  (fails_with Conflict (fst (register env P N w)) <->
   exists D, decodeURIComponent N = Normal D /\
     ((exists c, c ∈ coordinators (db w)
                 /\ Coordinator.phoneNumber c <> P
                 /\ Coordinator.projectName c = D)
      \/ (exists p, p ∈ listProjects env /\ Project.name p = D)))
  /\ (fails_with Conflict (fst (register env P N w)) ->
      snd (register env P N w)
        = with_db w (deleteCoordinatorByPhone P (db w))
      /\ findCoordinatorByPhone P (db (snd (register env P N w))) = None).
Proof.
  rewrite register_run.
  destruct (decodeURIComponent N) as [D|e] eqn:HN; simpl.
  2:{ apply decodeURIComponent_throws in HN as ->. split.
      - split; [by intros [? [=]] | by intros (? & [=] & _)].
      - by intros [? [=]]. }
  destruct (findCoordinatorByProject D _) as [c|] eqn:Hrem.
  { simpl. split.
    - split; [|by eexists]. intros _. exists D. split; [done|]. left.
      apply findCoordinatorByProject_Some in Hrem as [Hc Hname].
      apply elem_of_deleteCoordinatorByPhone in Hc as [Hne Hc]. by exists c.
    - intros _. split; [done|]. apply findCoordinatorByPhone_delete. }
  destruct (find_project D _) as [p|] eqn:Hreg.
  { simpl. split.
    - split; [|by eexists]. intros _. exists D. split; [done|]. right.
      apply find_project_Some in Hreg as [Hp Hname]. by exists p.
    - intros _. split; [done|]. apply findCoordinatorByPhone_delete. }
  simpl. split; [|by intros [? [=]]]. split; [by intros [? [=]]|].
  intros (D' & [= <-] & [(c & Hc & Hne & Hname)|(p & Hp & Hname)]).
  - rewrite findCoordinatorByProject_None in Hrem. destruct (Hrem c); [|done].
    by apply elem_of_deleteCoordinatorByPhone.
  - rewrite find_project_None in Hreg. by destruct (Hreg p).
Qed.

(** ** Uniqueness of the bindings *)

Lemma filter_nothing {A : Type} (P : A -> Prop) `{!forall x, Decision (P x)}
    (l : list A) :
  (forall x, x ∈ l -> ~ P x) -> filter P l = [].
Proof.
  induction l as [|x l IH]; [done|]. intros Hl.
  rewrite filter_cons_False by (apply Hl; left).
  apply IH. intros y Hy. apply Hl. by right.
Qed.

Lemma unique_phones_at_most_one d P :
  unique_phones d -> (length (coordinators_of P d) <= 1)%nat.
Proof.
  unfold unique_phones, coordinators_of.
  induction (coordinators d) as [|c cs IH]; [simpl; lia|].
  intros Hu. rewrite fmap_cons in Hu. apply list.NoDup_cons in Hu as [Hc Hcs].
  destruct (decide (Coordinator.phoneNumber c = P)) as [HP|HP].
  - rewrite filter_cons_True by done. simpl.
    assert (filter (fun c' => Coordinator.phoneNumber c' = P) cs = []) as ->;
      [|simpl; lia].
    apply filter_nothing. intros c' Hc' HP'.
    apply Hc. rewrite HP, <- HP'. by apply list_elem_of_fmap_2.
  - rewrite filter_cons_False by done. by apply IH.
Qed.

Lemma delete_preserves_unique P d :
  unique_phones d /\ unique_projects d ->
  unique_phones (deleteCoordinatorByPhone P d)
  /\ unique_projects (deleteCoordinatorByPhone P d).
Proof.
  intros [H1 H2]. split; by apply NoDup_fmap_filter.
Qed.

Lemma save_known_preserves_unique P c c' d :
  findCoordinatorByPhone P d = Some c ->
  Coordinator.phoneNumber c' = Coordinator.phoneNumber c ->
  Coordinator.projectName c' = Coordinator.projectName c ->
  unique_phones d /\ unique_projects d ->
  unique_phones (saveCoordinator c' d) /\ unique_projects (saveCoordinator c' d).
Proof.
  intros HP Hph Hname [H1 H2].
  destruct (findCoordinatorByPhone_Some _ _ _ HP) as [_ <-].
  unfold unique_phones, unique_projects, saveCoordinator; simpl.
  rewrite Hph.
  rewrite (upsert_present _ Coordinator.phoneNumber c' c) by done.
  by rewrite (upsert_present _ Coordinator.projectName c' c).
Qed.

Lemma register_preserves_unique env P N w :
  unique_phones (db w) /\ unique_projects (db w) ->
  unique_phones (db (snd (register env P N w)))
  /\ unique_projects (db (snd (register env P N w))).
Proof.
  intros Hu. rewrite register_run.
  destruct (decodeURIComponent N) as [D|e]; [|done]. cbv zeta.
  pose proof (delete_preserves_unique P _ Hu) as [H1 H2].
  destruct (findCoordinatorByProject D _) eqn:Hrem; [done|].
  destruct (find_project D _); [done|]. unfold with_db. cbn [snd db].
  destruct (coordinators_of_save_fresh P (Coordinator.mk P D None (now env))
              (deleteCoordinatorByPhone P (db w)) eq_refl
              (findCoordinatorByPhone_delete P (db w))) as [Hall _].
  unfold unique_phones, unique_projects. rewrite Hall. split.
  - apply NoDup_fmap_snoc; [done|]. intros c Hc.
    by apply elem_of_deleteCoordinatorByPhone in Hc as [? _].
  - apply NoDup_fmap_snoc; [done|].
    by apply findCoordinatorByProject_None.
Qed.

Lemma authRoutes_preserves_unique tok env req w :
  unique_phones (db w) /\ unique_projects (db w) ->
  unique_phones (db (authRoutes tok env req w))
  /\ unique_projects (db (authRoutes tok env req w)).
Proof.
  intros Hu. destruct req as [a P N|a P|a P N|a C Mb]; unfold authRoutes.
  - unfold bind, verifyBearerAuth, ret, throw.
    destruct (bool_decide _); [|done]. by apply register_preserves_unique.
  - unfold bind, verifyBearerAuth, ret, throw.
    destruct (bool_decide _); [|done]. rewrite unregister_run.
    destruct (findCoordinatorByPhone P (db w)); [|done].
    by apply delete_preserves_unique.
  - unfold bind, verifyBearerAuth, ret, throw.
    destruct (bool_decide _); [|done]. rewrite login_run.
    destruct (findCoordinatorByPhone P (db w)) as [c|] eqn:HP; [|done].
    destruct (_ === _); [|done].
    destruct (decodeURIComponent _); [|done].
    destruct (find_project _ _); [|done]. cbn [snd db].
    by apply (save_known_preserves_unique P c).
  - rewrite delegateMember_run.
    destruct (findCoordinatorByPhone C (db w)) as [c|]; [|done].
    destruct (truthy (Coordinator.token c)); [|done].
    destruct (truthy (findProjectByCoordinatorPhone C (db w))); [|done].
    destruct (bool_decide _); [|done].
    destruct (test phone_pattern Mb); [|done].
    by destruct (findMemberByPhone Mb (db w)).
Qed.

Lemma serve_preserves_unique tok requests w :
  unique_phones (db w) /\ unique_projects (db w) ->
  unique_phones (db (serve tok requests w))
  /\ unique_projects (db (serve tok requests w)).
Proof.
  revert w. induction requests as [|[env req] requests IH]; [done|].
  intros w Hu. apply IH. by apply authRoutes_preserves_unique.
Qed.

(** C2: in every state that a sequence of register, unregister, login and
    delegateMember requests reaches from the empty store, at most one
    coordinator record exists per phone number and no two records hold the
    same project name; a [register] that then succeeds has found, the
    caller's own record set aside, no stored coordinator and no listed
    project with the decoded name, and keeps both properties. *)
Theorem unique_bindings tok source requests :
  let w := serve tok requests (start source) in
  unique_phones (db w)
  /\ unique_projects (db w)
  /\ (forall P, (length (coordinators_of P (db w)) <= 1)%nat)
  /\ (forall c1 c2, c1 ∈ coordinators (db w) -> c2 ∈ coordinators (db w) ->
        Coordinator.projectName c1 = Coordinator.projectName c2 -> c1 = c2)
  /\ (forall env P N r w',
        register env P N w = (Normal r, w') ->
        exists D,
          decodeURIComponent N = Normal D
          /\ (forall c, c ∈ coordinators (db w) ->
                Coordinator.phoneNumber c <> P ->
                Coordinator.projectName c <> D)
          /\ (forall p, p ∈ listProjects env -> Project.name p <> D)
          /\ unique_phones (db w') /\ unique_projects (db w')).
Proof.
  intros w.
  assert (unique_phones (db w) /\ unique_projects (db w)) as Hu.
  { apply serve_preserves_unique. split; apply NoDup_nil_2. }
  destruct Hu as [H1 H2]. repeat split; try done.
  - intros P. by apply unique_phones_at_most_one.
  - intros c1 c2. by apply NoDup_fmap_eq.
  - intros env P N r w' Hrun.
    pose proof (register_preserves_unique env P N w (conj H1 H2)) as Hu'.
    rewrite Hrun in Hu'. simpl in Hu'.
    rewrite register_run in Hrun.
    destruct (decodeURIComponent N) as [D|e]; [|done]. cbv zeta in Hrun.
    destruct (findCoordinatorByProject D _) eqn:Hrem; [done|].
    destruct (find_project D _) eqn:Hreg; [done|].
    exists D. split; [done|]. split; [|split; [|done]].
    + intros c Hc Hne. rewrite findCoordinatorByProject_None in Hrem.
      apply Hrem. by apply elem_of_deleteCoordinatorByPhone.
    + by apply find_project_None.
Qed.

(** ** Login *)

Lemma toString_hex_length bytes :
  length (toString_hex bytes) = (2 * length bytes)%nat.
Proof.
  unfold toString_hex. induction bytes as [|b bytes IH]; simpl; [done|].
  rewrite IH. lia.
Qed.

Lemma next_token_length w : length (next_token w) = 64%nat.
Proof.
  unfold next_token.
  by rewrite toString_hex_length, length_map, length_seq.
Qed.

Lemma generateToken_run w :
  generateToken w
  = (Normal (next_token w), mkWorld (db w) (entropy w) (drawn w + 32)%nat).
Proof. reflexivity. Qed.

Lemma findCoordinatorByPhone_save c d :
  findCoordinatorByPhone (Coordinator.phoneNumber c) (saveCoordinator c d)
  = Some c.
Proof.
  unfold findCoordinatorByPhone, saveCoordinator; simpl.
  apply find_upsert_same, strict_eq_refl.
Qed.

Lemma findCoordinatorByPhone_save_other Q c d :
  Q <> Coordinator.phoneNumber c ->
  findCoordinatorByPhone Q (saveCoordinator c d) = findCoordinatorByPhone Q d.
Proof.
  intros HQ. unfold findCoordinatorByPhone, saveCoordinator; simpl.
  apply find_upsert_other.
  - by apply strict_eq_false.
  - intros y Hy%strict_eq_true. apply strict_eq_false. congruence.
Qed.

(** A login succeeds when the stored name is the supplied one, can be
    decoded, and a listed project bears the decoded name. *)
Lemma login_succeeds env P N D w c p :
  findCoordinatorByPhone P (db w) = Some c ->
  Coordinator.projectName c = N ->
  decodeURIComponent N = Normal D ->
  find_project D (listProjects env) = Some p ->
  fst (login env P N w) = Normal (mkCredential (next_token w) N).
Proof.
  intros HP <- HD Hp.
  by rewrite login_run, HP, strict_eq_refl, HD, Hp.
Qed.

(** C4: [login] fails Unauthorized when no coordinator is stored for [P],
    and when the stored name differs from the supplied one as it stands;
    past both checks it fails ProjectNotFound exactly when the stored name
    decodes to a name that no listed project bears; the checks come in this
    order, and a failed login leaves store and token generator untouched. *)
Theorem login_failures env P N w :
  (findCoordinatorByPhone P (db w) = None ->
   fails_with Unauthorized (fst (login env P N w)))
  /\ (forall c, findCoordinatorByPhone P (db w) = Some c ->
        Coordinator.projectName c <> N ->
        fails_with Unauthorized (fst (login env P N w)))
  /\ (forall c, findCoordinatorByPhone P (db w) = Some c ->
        Coordinator.projectName c = N ->
        (fails_with ProjectNotFound (fst (login env P N w)) <->
         exists D,
           decodeURIComponent (Coordinator.projectName c) = Normal D
           /\ forall p, p ∈ listProjects env -> Project.name p <> D))
  /\ (forall e, fst (login env P N w) = Throw e ->
        snd (login env P N w) = w).
Proof.
  rewrite login_run. split; [|split; [|split]].
  - intros ->. by eexists.
  - intros c -> Hne%strict_eq_false. rewrite Hne. by eexists.
  - intros c -> Hname%strict_eq_true. rewrite Hname. split.
    + destruct (decodeURIComponent _) as [D|e] eqn:HD.
      * destruct (find_project D _) eqn:Hreg; [by intros [? [=]]|].
        intros _. exists D. split; [done|]. by apply find_project_None.
      * apply decodeURIComponent_throws in HD as ->. by intros [? [=]].
    + intros (D & -> & Hreg%find_project_None). rewrite Hreg. by eexists.
  - intros e.
    destruct (findCoordinatorByPhone P (db w)) as [c|]; [|done].
    destruct (_ === _); [|done].
    destruct (decodeURIComponent _); [|done].
    by destruct (find_project _ _).
Qed.

(** C5: a successful [login] generates a token and overwrites the record of
    the coordinator, keeping its phone number and project name and setting
    the token to the generated one and [createdAt] to now; it answers with
    that token and the project name as stored. *)
Theorem login_success env P N w r w' :
  login env P N w = (Normal r, w') ->
  exists c,
    findCoordinatorByPhone P (db w) = Some c
    /\ let token := next_token w in
       let stamped :=
         Coordinator.mk (Coordinator.phoneNumber c)
           (Coordinator.projectName c) (Some token) (now env) in
       fst (generateToken w) = Normal token
       /\ length token = 64%nat
       /\ r = mkCredential token (Coordinator.projectName c)
       /\ w' = mkWorld (saveCoordinator stamped (db w)) (entropy w)
                 (drawn w + 32)%nat
       /\ findCoordinatorByPhone P (db w') = Some stamped
       /\ length (coordinators (db w')) = length (coordinators (db w))
       /\ (forall Q, Q <> P ->
             findCoordinatorByPhone Q (db w') = findCoordinatorByPhone Q (db w))
       /\ members (db w') = members (db w).
Proof.
  rewrite login_run.
  destruct (findCoordinatorByPhone P (db w)) as [c|] eqn:HP; [|done].
  destruct (_ === _); [|done].
  destruct (decodeURIComponent _); [|done].
  destruct (find_project _ _); [|done].
  intros [= <- <-]. exists c. split; [done|]. cbv zeta. cbn [db].
  destruct (findCoordinatorByPhone_Some _ _ _ HP) as [_ HcP].
  split; [done|]. split; [apply next_token_length|].
  split; [done|]. split; [done|]. repeat split.
  - rewrite <- HcP at 1.
    apply (findCoordinatorByPhone_save
             (Coordinator.mk (Coordinator.phoneNumber c) _ _ _)).
  - unfold saveCoordinator; simpl. apply (upsert_length _ _ c).
    by rewrite HcP.
  - intros Q HQ. apply findCoordinatorByPhone_save_other. simpl. congruence.
Qed.

Lemma register_success env P N r w w' :
  register env P N w = (Normal r, w') ->
  exists D,
    decodeURIComponent N = Normal D
    /\ r = mkRegistration P D
    /\ findCoordinatorByProject D (deleteCoordinatorByPhone P (db w)) = None
    /\ find_project D (listProjects env) = None
    /\ w' = with_db w (saveCoordinator (Coordinator.mk P D None (now env))
                         (deleteCoordinatorByPhone P (db w)))
    /\ findCoordinatorByPhone P (db w')
       = Some (Coordinator.mk P D None (now env)).
Proof.
  rewrite register_run. destruct (decodeURIComponent N) as [D|e]; [|done].
  cbv zeta. destruct (findCoordinatorByProject D _) eqn:Hrem; [done|].
  destruct (find_project D _) eqn:Hreg; [done|].
  intros [= <- <-]. exists D. repeat split; try done.
  apply (findCoordinatorByPhone_save (Coordinator.mk P D None (now env))).
Qed.

(** C10: after a successful [register] of a name [N] whose decoding [D]
    differs from [N], a [login] with the very same arguments fails
    Unauthorized and changes nothing; a login that is not turned down by
    the name check supplied [D]. *)
Theorem encoded_name_round_trip env P N D r w w' :
  decodeURIComponent N = Normal D ->
  D <> N ->
  register env P N w = (Normal r, w') ->
  forall env',
    login env' P N w'
    = (Throw (unauthorizedError "Invalid phone number or project name"), w')
    /\ fails_with Unauthorized (fst (login env' P N w'))
    /\ (forall Mn, ~ fails_with Unauthorized (fst (login env' P Mn w')) ->
          Mn = D).
Proof.
  intros HD Hne Hreg env'.
  apply register_success in Hreg as (D' & HD' & _ & _ & _ & _ & Hfind).
  assert (D' = D) as -> by congruence.
  assert (forall Mn, Mn <> D ->
            login env' P Mn w'
            = (Throw (unauthorizedError
                        "Invalid phone number or project name"), w')) as Hno.
  { intros Mn HMn. rewrite login_run, Hfind. simpl.
    by rewrite (proj2 (strict_eq_false D Mn)). }
  split; [by apply Hno|]. split.
  - rewrite Hno by done. by eexists.
  - intros Mn HMn. destruct (decide (Mn = D)) as [|HneM]; [done|].
    destruct HMn. rewrite Hno by done. by eexists.
Qed.

(** C9: a name can be registered whose stored, decoded form holds a [%]
    that starts no escape (such as ["100%"], stored for ["100%25"]).  As
    long as that record is stored no login of the coordinator succeeds: a
    login with exactly the stored name throws the decoder's [URIError],
    which is none of the typed errors, because the stored name is decoded a
    second time, and a login with any other name is turned down by the name
    check before. *)
Theorem login_decodes_twice env P N D w :
  decodeURIComponent N = Normal D ->
  stray_percent D ->
  findCoordinatorByProject D (deleteCoordinatorByPhone P (db w)) = None ->
  find_project D (listProjects env) = None ->
  let w' := snd (register env P N w) in
  fst (register env P N w) = Normal (mkRegistration P D)
  /\ findCoordinatorByPhone P (db w')
     = Some (Coordinator.mk P D None (now env))
  /\ (forall w'' c,
        findCoordinatorByPhone P (db w'') = Some c ->
        Coordinator.projectName c = D ->
        forall env',
          login env' P D w'' = (Throw URIError, w'')
          /\ (forall Mn, Mn <> D ->
                fails_with Unauthorized (fst (login env' P Mn w''))
                /\ snd (login env' P Mn w'') = w''))
  /\ (forall env', login env' P D w' = (Throw URIError, w'))
  /\ (forall k, ~ fails_with k (Throw (A := Credential) URIError)).
Proof.
  intros HD Hstray Hrem Hreg. cbv zeta.
  assert (forall w'' c,
        findCoordinatorByPhone P (db w'') = Some c ->
        Coordinator.projectName c = D ->
        forall env',
          login env' P D w'' = (Throw URIError, w'')
          /\ (forall Mn, Mn <> D ->
                fails_with Unauthorized (fst (login env' P Mn w''))
                /\ snd (login env' P Mn w'') = w''))
    as Hlater.
  { intros w'' c Hc Hname env'. split.
    - rewrite login_run, Hc, Hname, strict_eq_refl.
      by rewrite (stray_percent_throws D Hstray).
    - intros Mn HMn. rewrite login_run, Hc, Hname.
      rewrite (proj2 (strict_eq_false D Mn)) by done.
      split; [by eexists | done]. }
  destruct (register env P N w) as [r w'] eqn:Hrun.
  rewrite register_run, HD in Hrun. cbv zeta in Hrun.
  rewrite Hrem, Hreg in Hrun. injection Hrun as <- <-. cbn [fst snd].
  assert (findCoordinatorByPhone P
            (db (with_db w
                   (saveCoordinator (Coordinator.mk P D None (now env))
                      (deleteCoordinatorByPhone P (db w)))))
          = Some (Coordinator.mk P D None (now env))) as Hfind.
  { apply (findCoordinatorByPhone_save (Coordinator.mk P D None (now env))). }
  split; [done|]. split; [done|]. split; [done|]. split.
  - intros env'. by apply (Hlater _ _ Hfind).
  - by intros k [? [=]].
Qed.

(** ** Delegation *)

Lemma truthy_Some v s : truthy v = Some s -> v = Some s /\ s <> [].
Proof. by destruct v as [[|c v]|]; intros [= <-]. Qed.

Lemma findMemberByPhone_save m d :
  findMemberByPhone (Member.phoneNumber m) (saveMember m d) = Some m.
Proof.
  unfold findMemberByPhone, saveMember; simpl.
  apply find_upsert_same, strict_eq_refl.
Qed.

(** A delegation succeeds when the coordinator holds a non-empty token
    that the request presents and a non-empty project name, and the member
    phone number is well formed and new. *)
Lemma delegateMember_succeeds env C Mb w c T name :
  findCoordinatorByPhone C (db w) = Some c ->
  Coordinator.token c = Some T -> T <> [] ->
  Coordinator.projectName c = name -> name <> [] ->
  test phone_pattern Mb = true ->
  findMemberByPhone Mb (db w) = None ->
  fst (delegateMember env (Some T) C Mb w)
  = Normal (mkCredential (next_token w) name).
Proof.
  intros HC HT HTne Hname Hnamene Htest HMb.
  rewrite delegateMember_run, HC, HT. unfold findProjectByCoordinatorPhone.
  rewrite HC. simpl. rewrite Hname.
  destruct T as [|t T]; [done|]. destruct name as [|n name]; [done|].
  simpl. rewrite bool_decide_true by done. by rewrite Htest, HMb.
Qed.

(** C6: a [delegateMember] that succeeds found the coordinator with a token
    equal to the presented one, a project name for that coordinator, a
    well-formed member phone number and no member under it; it creates
    exactly one member record, with the member's phone number, the generated
    token, the coordinator's phone number, that project name and the current
    time, and answers with the token and the project name. *)
Theorem delegateMember_success env authorization C Mb w r w' :
  delegateMember env authorization C Mb w = (Normal r, w') ->
  exists c T name,
    findCoordinatorByPhone C (db w) = Some c
    /\ Coordinator.token c = Some T
    /\ authorization = Some T
    /\ findProjectByCoordinatorPhone C (db w) = Some name
    /\ test phone_pattern Mb = true
    /\ findMemberByPhone Mb (db w) = None
    /\ let token := next_token w in
       let member := Member.mk Mb token C name (now env) in
       fst (generateToken w) = Normal token
       /\ r = mkCredential token name
       /\ members (db w') = members (db w) ++ [member]
       /\ findMemberByPhone Mb (db w') = Some member
       /\ coordinators (db w') = coordinators (db w).
Proof.
  rewrite delegateMember_run.
  destruct (findCoordinatorByPhone C (db w)) as [c|] eqn:HC; [|done].
  destruct (truthy (Coordinator.token c)) as [T|] eqn:HT; [|done].
  destruct (truthy (findProjectByCoordinatorPhone C (db w)))
    as [name|] eqn:Hname; [|done].
  destruct (bool_decide _) eqn:Hauth; [|done].
  destruct (test phone_pattern Mb) eqn:Htest; [|done].
  destruct (findMemberByPhone Mb (db w)) eqn:HMb; [done|].
  intros [= <- <-]. exists c, T, name.
  apply truthy_Some in HT as [HT _]. apply truthy_Some in Hname as [Hname _].
  apply bool_decide_eq_true in Hauth.
  destruct (findCoordinatorByPhone_Some _ _ _ HC) as [_ HcC].
  rewrite HcC. repeat split; try done; cbn [db].
  - unfold saveMember; simpl. by rewrite upsert_absent.
  - apply (findMemberByPhone_save (Member.mk Mb _ _ _ _)).
Qed.

(** C7: a [delegateMember] that fails, whatever the reason (coordinator
    absent or without token, no project for the coordinator, wrong bearer
    token, malformed or already registered member phone number), fails
    Unauthorized or BadRequest and leaves the world as it was: no member
    record is created and nothing in the store changes. *)
Theorem delegateMember_failure env authorization C Mb w e :
  fst (delegateMember env authorization C Mb w) = Throw e ->
  snd (delegateMember env authorization C Mb w) = w
  /\ members (db (snd (delegateMember env authorization C Mb w)))
     = members (db w)
  /\ (kind_of e = Some Unauthorized \/ kind_of e = Some BadRequest).
Proof.
  rewrite delegateMember_run.
  destruct (findCoordinatorByPhone C (db w)) as [c|];
    [|intros [= <-]; auto].
  destruct (truthy (Coordinator.token c)); [|intros [= <-]; auto].
  destruct (truthy (findProjectByCoordinatorPhone C (db w)));
    [|intros [= <-]; auto].
  destruct (bool_decide _); [|intros [= <-]; auto].
  destruct (test phone_pattern Mb); [|intros [= <-]; auto].
  destruct (findMemberByPhone Mb (db w)); [intros [= <-]; auto|done].
Qed.

(** ** The phone number pattern *)

Lemma digit_range c : (48 <=? c) && (c <=? 57) = true <-> is_digit c.
Proof. unfold is_digit. rewrite andb_true_iff, !N.leb_le. done. Qed.

Lemma at_end_true i s : at_end (mkState i s) = true <-> s = [].
Proof. unfold at_end; simpl. by destruct s. Qed.

Lemma RepeatMatcher_S m min max x c :
  RepeatMatcher m min (S max) x c =
  let d := fun y =>
    if Nat.eqb min 0 && Nat.eqb (endIndex y) (endIndex x) then false
    else RepeatMatcher m (Nat.pred min) max y c in
  if negb (Nat.eqb min 0) then m x d
  else if m x d then true else c x.
Proof. reflexivity. Qed.

Lemma digit_matcher i s d :
  CompileSubpattern Digit (mkState i s) d =
  match s with
  | [] => false
  | ch :: rest =>
      if (48 <=? ch) && (ch <=? 57) then d (mkState (S i) rest) else false
  end.
Proof. reflexivity. Qed.

Lemma repeat_digits max : forall min i s,
  (min <= max)%nat ->
  RepeatMatcher (CompileSubpattern Digit) min max (mkState i s) at_end = true
  <-> Forall is_digit s /\ (min <= length s <= max)%nat.
Proof.
  induction max as [|max IH]; intros min i s Hmin.
  - simpl. rewrite at_end_true. split.
    + intros ->. split; [constructor | simpl; lia].
    + intros [_ Hlen]. destruct s; [done | simpl in Hlen; lia].
  - rewrite RepeatMatcher_S. cbv zeta. rewrite digit_matcher.
    destruct s as [|ch rest].
    + destruct min as [|min]; simpl.
      * split; [|done]. intros _. split; [constructor | simpl; lia].
      * split; [done|]. intros [_ Hlen]. simpl in Hlen. lia.
    + cbn [endIndex].
      assert (Nat.eqb (S i) i = false) as -> by (apply Nat.eqb_neq; lia).
      rewrite andb_false_r.
      destruct ((48 <=? ch) && (ch <=? 57)) eqn:Hch.
      2:{ assert (~ Forall is_digit (ch :: rest)) as Hno.
          { intros Hall. apply list.Forall_cons in Hall as [Hd _].
            apply digit_range in Hd. congruence. }
          destruct min; simpl; (split; [done | by intros [? _]]). }
      apply digit_range in Hch.
      assert (forall m' : nat, (m' <= max)%nat ->
                RepeatMatcher (CompileSubpattern Digit) m' max
                  (mkState (S i) rest) at_end = true
                <-> Forall is_digit (ch :: rest)
                    /\ (S m' <= length (ch :: rest) <= S max)%nat) as IH'.
      { intros m' Hm'. rewrite IH by done. rewrite list.Forall_cons. simpl.
        split; intros [? ?]; (split; [tauto | lia]). }
      destruct min as [|min]; simpl Nat.eqb; simpl negb; simpl Nat.pred;
        cbv iota.
      * destruct (RepeatMatcher _ 0 max _ at_end) eqn:Hrest.
        -- apply IH' in Hrest as [Hall Hlen]; [|lia].
           split; [|done]. intros _. split; [done|lia].
        -- split; [done|]. intros [Hall Hlen].
           rewrite (proj2 (IH' 0%nat ltac:(lia))) in Hrest; [done|].
           split; [done | simpl in *; lia].
      * apply IH'. lia.
Qed.

Lemma exec_from_unfold r lastIndex s :
  exec_from r lastIndex s =
  if CompileSubpattern r (mkState lastIndex s) (fun _ => true) then true
  else
    match s with
    | [] => false
    | a :: s1 =>
        match s1 with
        | b :: s2 =>
            if is_leading_surrogate a && is_trailing_surrogate b
            then exec_from r (S (S lastIndex)) s2
            else exec_from r (S lastIndex) s1
        | [] => exec_from r (S lastIndex) s1
        end
    end.
Proof. by destruct s. Qed.

Lemma exec_from_anchored r s : forall k,
  exec_from (Seq AssertStart r) (S k) s = false.
Proof.
  remember (length s) as n eqn:Hn. revert s Hn.
  induction n as [n IH] using lt_wf_ind. intros s Hn k.
  rewrite exec_from_unfold.
  change (CompileSubpattern (Seq AssertStart r) (mkState (S k) s)
            (fun _ => true)) with false. cbv iota.
  destruct s as [|a [|b s2]]; [done| |].
  - apply (IH 0%nat); [simpl in Hn; lia | done].
  - destruct (is_leading_surrogate a && is_trailing_surrogate b).
    + apply (IH (length s2)); [simpl in Hn; lia | done].
    + apply (IH (length (b :: s2))); [simpl in Hn; simpl; lia | done].
Qed.

Lemma test_anchored r s :
  test (Seq AssertStart r) s
  = CompileSubpattern (Seq AssertStart r) (mkState 0 s) (fun _ => true).
Proof.
  unfold test. rewrite exec_from_unfold.
  destruct (CompileSubpattern _ _ _); [done|].
  destruct s as [|a [|b s2]]; [done| |].
  - apply exec_from_anchored.
  - destruct (is_leading_surrogate a && is_trailing_surrogate b);
      apply exec_from_anchored.
Qed.

Lemma national_number_unfold i s :
  CompileSubpattern
    (Seq (Range 49 57) (Seq (Quantified Digit 1 14) AssertEnd))
    (mkState i s) (fun _ => true)
  = match s with
    | [] => false
    | first :: further =>
        if (49 <=? first) && (first <=? 57)
        then RepeatMatcher (CompileSubpattern Digit) 1 14
               (mkState (S i) further) at_end
        else false
    end.
Proof. reflexivity. Qed.

Lemma national_number i s :
  CompileSubpattern
    (Seq (Range 49 57) (Seq (Quantified Digit 1 14) AssertEnd))
    (mkState i s) (fun _ => true) = true
  <-> exists first further,
        s = first :: further
        /\ 49 <= first <= 57
        /\ Forall is_digit further
        /\ (1 <= length further <= 14)%nat.
Proof.
  rewrite national_number_unfold. destruct s as [|first further].
  { split; [done|]. by intros (? & ? & [=] & _). }
  destruct ((49 <=? first) && (first <=? 57)) eqn:Hfirst.
  - apply andb_true_iff in Hfirst as [H1%N.leb_le H2%N.leb_le].
    rewrite repeat_digits by lia. split.
    + intros [Hall Hlen]. by exists first, further.
    + by intros (? & ? & [= <- <-] & _ & Hall & Hlen).
  - split; [done|]. intros (? & ? & [= <- <-] & [H1 H2] & _).
    apply N.leb_le in H1, H2. rewrite H1, H2 in Hfirst. done.
Qed.

Lemma phone_pattern_unfold s :
  CompileSubpattern phone_pattern (mkState 0 s) (fun _ => true)
  = if match s with
       | [] => false
       | ch :: rest =>
           if ch =? PLUS
           then CompileSubpattern
                  (Seq (Range 49 57) (Seq (Quantified Digit 1 14) AssertEnd))
                  (mkState 1 rest) (fun _ => true)
           else false
       end
    then true
    else CompileSubpattern
           (Seq (Range 49 57) (Seq (Quantified Digit 1 14) AssertEnd))
           (mkState 0 s) (fun _ => true).
Proof. by destruct s. Qed.

(** The pattern accepts exactly the strings the spec describes. *)
Lemma test_phone_pattern s : test phone_pattern s = true <-> e164_like s.
Proof.
  unfold phone_pattern at 1. rewrite test_anchored.
  fold phone_pattern. rewrite phone_pattern_unfold. unfold e164_like.
  destruct s as [|ch rest].
  { rewrite national_number. split.
    - by intros (? & ? & [=] & _).
    - by intros (? & ? & [[=]|[=]] & _). }
  destruct (N.eqb_spec ch PLUS) as [->|Hch].
  - destruct (CompileSubpattern _ (mkState 1 rest) _) eqn:Hplus.
    + split; [|done]. intros _.
      apply national_number in Hplus as (first & further & -> & Hrest).
      exists first, further. split; [by right | done].
    + rewrite national_number. split.
      * intros (first & further & -> & Hrest).
        exists first, further. split; [by left | done].
      * intros (first & further & [Hs|Hs] & Hrest).
        -- by exists first, further.
        -- injection Hs as ->.
           rewrite (proj2 (national_number 1 (first :: further))) in Hplus;
             [done|]. by exists first, further.
  - rewrite national_number. split.
    + intros (first & further & -> & Hrest).
      exists first, further. split; [by left | done].
    + intros (first & further & [Hs|Hs] & Hrest).
      * by exists first, further.
      * by injection Hs as -> _.
Qed.

(** C8, as amended: once the coordinator lookup, the project lookup and
    the bearer check have passed, [delegateMember] fails with the BadRequest
    "Invalid phone number format" exactly when the member phone number is
    not an optional [+], a first digit 1-9 and 1 to 14 further digits; it
    fails with some BadRequest exactly when the number is malformed or
    already registered. *)
Theorem member_phone_format env authorization C Mb w c T name :
  findCoordinatorByPhone C (db w) = Some c ->
  truthy (Coordinator.token c) = Some T ->
  truthy (findProjectByCoordinatorPhone C (db w)) = Some name ->
  authorization = Some T ->
  (fst (delegateMember env authorization C Mb w)
   = Throw (badRequestError "Invalid phone number format")
   <-> ~ e164_like Mb)
  /\ (fails_with BadRequest (fst (delegateMember env authorization C Mb w))
      <-> ~ e164_like Mb \/ is_Some (findMemberByPhone Mb (db w)))
  /\ (test phone_pattern Mb = true <-> e164_like Mb).
Proof.
  intros HC HT Hname ->. rewrite delegateMember_run, HC, HT, Hname.
  rewrite bool_decide_true by done.
  pose proof (test_phone_pattern Mb) as Htest.
  destruct (test phone_pattern Mb).
  - assert (e164_like Mb) as Hok by (by apply Htest).
    destruct (findMemberByPhone Mb (db w)) as [m|]; cbn [fst].
    + split; [|split; [|done]].
      * split; [by intros [=] | tauto].
      * split; [intros _; right; by eexists | intros _; by eexists].
    + split; [|split; [|done]].
      * split; [by intros [=] | tauto].
      * split; [by intros [? [=]] | by intros [?|[? [=]]]].
  - assert (~ e164_like Mb) as Hno.
    { intros Hok%Htest. done. }
    cbn [fst]. split; [|split; [|done]].
    + done.
    + split; [by left | intros _; by eexists].
Qed.

(** ** The claims on the sample run *)

(** Against C1 as first stated: the coordinator of the sample run, logged
    in, registers again under its own name while the registry lists that
    name; the call fails with Conflict and leaves no record for the phone
    number. *)
Lemma own_name_conflict :
  findCoordinatorByPhone coordinator_phone (db logged_in_world)
  = Some (Coordinator.mk coordinator_phone (str "Field1")
            (Some coordinator_token) (now after_creation))
  /\ decodeURIComponent (str "Field1") = Normal (str "Field1")
  /\ fst (register after_creation coordinator_phone (str "Field1")
            logged_in_world)
     = Throw (conflictError "Project name already exists")
  /\ coordinators_of coordinator_phone
       (db (snd (register after_creation coordinator_phone (str "Field1")
                   logged_in_world)))
     = [].
Proof. vm_compute. done. Qed.

(** Against C8 as first stated: the member of the sample run is delegated
    a second time; the phone number is well formed and the call fails
    BadRequest. *)
Lemma duplicate_member_bad_request :
  findCoordinatorByPhone coordinator_phone (db delegated_world)
  = Some (Coordinator.mk coordinator_phone (str "Field1")
            (Some coordinator_token) (now after_creation))
  /\ e164_like member_phone
  /\ fst (delegateMember after_creation (Some coordinator_token)
            coordinator_phone member_phone delegated_world)
     = Throw (badRequestError "Phone number already registered")
  /\ ~ (fails_with BadRequest
          (fst (delegateMember after_creation (Some coordinator_token)
                  coordinator_phone member_phone delegated_world))
        <-> ~ e164_like member_phone).
Proof.
  assert (e164_like member_phone) as Hok by (by apply test_phone_pattern).
  split; [by vm_compute|]. split; [done|].
  split; [by vm_compute|]. intros [Hfails _]. apply Hfails; [|done].
  by eexists.
Qed.

Lemma register_rebinds_phone_witness :
  fst (register before_creation coordinator_phone (str "Field1")
         logged_in_world)
  = Normal (mkRegistration coordinator_phone (str "Field1"))
  /\ coordinators_of coordinator_phone
       (db (snd (register before_creation coordinator_phone (str "Field1")
                   logged_in_world)))
     = [Coordinator.mk coordinator_phone (str "Field1") None
          (now before_creation)].
Proof.
  destruct (register_rebinds_phone before_creation coordinator_phone
              (str "Field1") (str "Field1") logged_in_world
              (Coordinator.mk coordinator_phone (str "Field1")
                 (Some coordinator_token) (now after_creation)))
    as (Hok & Hone & _); [reflexivity..| |].
  - left. split; [reflexivity|]. vm_compute. apply NoDup_singleton.
  - split; [exact Hok | exact Hone].
Defined.

Lemma unique_bindings_witness :
  unique_phones (db delegated_world)
  /\ unique_projects (db delegated_world)
  /\ exists D,
       decodeURIComponent (str "Camp%20B") = Normal D
       /\ forall c, c ∈ coordinators (db delegated_world) ->
            Coordinator.phoneNumber c <> str "+15550002222" ->
            Coordinator.projectName c <> D.
Proof.
  destruct (unique_bindings server_token sample_entropy
              [(before_creation,
                POST_auth_register (Some server_token) coordinator_phone
                  (str "Field1"));
               (after_creation,
                POST_auth_coordinator (Some server_token) coordinator_phone
                  (str "Field1"));
               (after_creation,
                POST_auth_member (Some coordinator_token) coordinator_phone
                  member_phone)])
    as (Hphones & Hprojects & _ & _ & Hregister).
  split; [exact Hphones|]. split; [exact Hprojects|].
  destruct (Hregister after_creation (str "+15550002222") (str "Camp%20B")
              _ _ eq_refl) as (D & HD & Hothers & _).
  exists D. split; [exact HD | exact Hothers].
Defined.

Lemma register_conflict_witness :
  findCoordinatorByPhone coordinator_phone
    (db (snd (register after_creation coordinator_phone (str "Field1")
                logged_in_world)))
  = None.
Proof.
  assert (fails_with Conflict
            (fst (register after_creation coordinator_phone (str "Field1")
                    logged_in_world))) as Hfails.
  { exists (Some "Project name already exists"%string). reflexivity. }
  destruct (register_conflict after_creation coordinator_phone (str "Field1")
              logged_in_world) as [_ Hstate].
  destruct (Hstate Hfails) as [_ Hgone]. exact Hgone.
Defined.

Lemma login_failures_witness :
  fails_with ProjectNotFound
    (fst (login before_creation coordinator_phone (str "Field1")
            registered_world))
  /\ snd (login before_creation coordinator_phone (str "Field1")
            registered_world)
     = registered_world.
Proof.
  destruct (login_failures before_creation coordinator_phone (str "Field1")
              registered_world) as (_ & _ & Hproject & Hsame).
  split.
  - apply (Hproject (Coordinator.mk coordinator_phone (str "Field1") None
                       (now before_creation))); [reflexivity..|].
    exists (str "Field1"). split; [reflexivity|]. by intros p ?%elem_of_nil.
  - by apply (Hsame projectNotFoundError).
Defined.

Lemma login_success_witness :
  findCoordinatorByPhone coordinator_phone (db logged_in_world)
  = Some (Coordinator.mk coordinator_phone (str "Field1")
            (Some coordinator_token) (now after_creation)).
Proof.
  destruct (login_success after_creation coordinator_phone (str "Field1")
              registered_world (mkCredential coordinator_token (str "Field1"))
              logged_in_world eq_refl)
    as (c & Hc & _ & _ & _ & _ & Hfind & _).
  injection Hc as <-. exact Hfind.
Defined.

Lemma delegateMember_success_witness :
  exists token,
    members (db delegated_world)
    = members (db logged_in_world)
      ++ [Member.mk member_phone token coordinator_phone (str "Field1")
            (now after_creation)].
Proof.
  destruct (delegateMember_success after_creation (Some coordinator_token)
              coordinator_phone member_phone logged_in_world
              (mkCredential (next_token logged_in_world) (str "Field1"))
              delegated_world eq_refl)
    as (c & T & name & Hc & _ & _ & Hname & _ & _ & _ & _ & Hmembers & _).
  exists (next_token logged_in_world).
  injection Hname as <-. exact Hmembers.
Defined.

Lemma delegateMember_failure_witness :
  snd (delegateMember after_creation (Some (str "not-the-token"))
         coordinator_phone (str "+15557654321") logged_in_world)
  = logged_in_world.
Proof.
  destruct (delegateMember_failure after_creation (Some (str "not-the-token"))
              coordinator_phone (str "+15557654321") logged_in_world
              (TypedError Unauthorized None) eq_refl) as [Hsame _].
  exact Hsame.
Defined.

Lemma member_phone_format_witness :
  fst (delegateMember after_creation (Some coordinator_token)
         coordinator_phone (str "abc") logged_in_world)
  = Throw (badRequestError "Invalid phone number format")
  <-> ~ e164_like (str "abc").
Proof.
  destruct (member_phone_format after_creation (Some coordinator_token)
              coordinator_phone (str "abc") logged_in_world
              (Coordinator.mk coordinator_phone (str "Field1")
                 (Some coordinator_token) (now after_creation))
              coordinator_token (str "Field1"))
    as [Hformat _]; [reflexivity..|].
  exact Hformat.
Defined.

Lemma login_decodes_twice_witness :
  fst (register before_creation coordinator_phone (str "100%25")
         (start sample_entropy))
  = Normal (mkRegistration coordinator_phone (str "100%"))
  /\ login after_creation coordinator_phone (str "100%")
       (snd (register before_creation coordinator_phone (str "100%25")
               (start sample_entropy)))
     = (Throw URIError,
        snd (register before_creation coordinator_phone (str "100%25")
               (start sample_entropy))).
Proof.
  destruct (login_decodes_twice before_creation coordinator_phone
              (str "100%25") (str "100%") (start sample_entropy))
    as (Hok & _ & _ & Hthrows & _); [reflexivity| |reflexivity..|].
  - exists (str "100"), []. split; [reflexivity|].
    by intros (h1 & h2 & rest & [=] & _).
  - split; [exact Hok | exact (Hthrows after_creation)].
Defined.

Lemma encoded_name_round_trip_witness :
  fails_with Unauthorized
    (fst (login after_creation coordinator_phone (str "Camp%20B")
            (snd (register before_creation coordinator_phone
                    (str "Camp%20B") (start sample_entropy))))).
Proof.
  destruct (encoded_name_round_trip before_creation coordinator_phone
              (str "Camp%20B") (str "Camp B")
              (mkRegistration coordinator_phone (str "Camp B"))
              (start sample_entropy)
              (snd (register before_creation coordinator_phone
                      (str "Camp%20B") (start sample_entropy)))
              eq_refl ltac:(by vm_compute) eq_refl after_creation)
    as (_ & Hfails & _).
  exact Hfails.
Defined.

(** ** The token generator *)

Lemma hex_digit_lower d : d < 16 -> is_lower_hex (hex_digit d).
Proof.
  intros Hd. unfold hex_digit, is_lower_hex.
  destruct (N.ltb_spec d 10); lia.
Qed.

Lemma hex_digit_value_hex_digit d :
  d < 16 -> hex_digit_value (hex_digit d) = Some d.
Proof.
  intros Hd. unfold hex_digit, hex_digit_value.
  destruct (N.ltb_spec d 10) as [Hlt|Hge].
  - rewrite (proj2 (N.leb_le 48 (48 + d))) by lia.
    rewrite (proj2 (N.leb_le (48 + d) 57)) by lia. simpl. f_equal. lia.
  - rewrite (proj2 (N.leb_gt (87 + d) 57)) by lia. rewrite andb_false_r.
    rewrite (proj2 (N.leb_gt (87 + d) 70)) by lia. rewrite andb_false_r.
    rewrite (proj2 (N.leb_le 97 (87 + d))) by lia.
    rewrite (proj2 (N.leb_le (87 + d) 102)) by lia. simpl. f_equal. lia.
Qed.

Lemma byte_bounded b : Byte.to_N b < 256.
Proof. by destruct b. Qed.

Lemma ParseHexOctet_hex b :
  ParseHexOctet (hex_digit (Byte.to_N b / 16)) (hex_digit (Byte.to_N b mod 16))
  = Some (Byte.to_N b).
Proof.
  pose proof (byte_bounded b) as Hb. unfold ParseHexOctet.
  rewrite !hex_digit_value_hex_digit.
  - f_equal. rewrite (N.div_mod' (Byte.to_N b) 16) at 3. lia.
  - apply N.mod_lt. lia.
  - apply N.Div0.div_lt_upper_bound. lia.
Qed.

Lemma toString_hex_digits bytes : Forall is_lower_hex (toString_hex bytes).
Proof.
  unfold toString_hex. induction bytes as [|b bytes IH]; simpl; [done|].
  pose proof (byte_bounded b) as Hb.
  apply List.Forall_cons; [|apply List.Forall_cons; [|done]];
    apply hex_digit_lower.
  - apply N.Div0.div_lt_upper_bound. lia.
  - apply N.mod_lt. lia.
Qed.

Lemma toString_hex_inj bytes1 bytes2 :
  toString_hex bytes1 = toString_hex bytes2 -> bytes1 = bytes2.
Proof.
  revert bytes2. unfold toString_hex.
  induction bytes1 as [|b1 bytes1 IH]; intros [|b2 bytes2]; simpl;
    try done.
  intros [= H1 H2 Hrest]. f_equal; [|by apply IH].
  pose proof (ParseHexOctet_hex b1) as Hp1.
  pose proof (ParseHexOctet_hex b2) as Hp2.
  rewrite H1, H2, Hp2 in Hp1. injection Hp1 as Hn.
  pose proof (Byte.of_to_N b1) as Ho1. pose proof (Byte.of_to_N b2) as Ho2.
  rewrite <- Hn, Ho2 in Ho1. by injection Ho1.
Qed.

Lemma next_token_is_token w : is_token (next_token w).
Proof. split; [apply next_token_length | apply toString_hex_digits]. Qed.

Lemma is_token_truthy t : is_token t -> truthy (Some t) = Some t.
Proof. intros [Hlen _]. by destruct t. Qed.

(** X1: every call of [generateToken] returns 64 lowercase hexadecimal
    digits, hence a truthy string; it uses up exactly the next 32 bytes of
    the random source and leaves the store alone. *)
Theorem generateToken_format w :
  exists t,
    generateToken w
    = (Normal t, mkWorld (db w) (entropy w) (drawn w + 32)%nat)
    /\ length t = 64%nat
    /\ Forall is_lower_hex t
    /\ truthy (Some t) = Some t.
Proof.
  exists (next_token w). split; [done|].
  destruct (next_token_is_token w) as [Hlen Hhex].
  split; [done|]. split; [done|]. by apply is_token_truthy.
Qed.

(** X2: two generated tokens are equal only if the 32 random bytes they were
    rendered from are equal, one by one. *)
Theorem generateToken_collision w1 w2 t1 t2 :
  fst (generateToken w1) = Normal t1 ->
  fst (generateToken w2) = Normal t2 ->
  t1 = t2 <->
  forall i, (i < 32)%nat ->
    entropy w1 (drawn w1 + i)%nat = entropy w2 (drawn w2 + i)%nat.
Proof.
  intros H1 H2. rewrite generateToken_run in H1, H2. cbn [fst] in H1, H2.
  assert (t1 = next_token w1) as -> by congruence.
  assert (t2 = next_token w2) as -> by congruence.
  clear H1 H2. unfold next_token. split.
  - intros Heq%toString_hex_inj i Hi.
    assert (map (entropy w1) (seq (drawn w1) 32) !! i
            = map (entropy w2) (seq (drawn w2) 32) !! i) as Hi'
      by (by rewrite Heq).
    rewrite !list_lookup_fmap, !lookup_seq_lt in Hi' by done.
    by injection Hi'.
  - intros Hall. f_equal. apply list_eq. intros i.
    rewrite !list_lookup_fmap.
    destruct (decide (i < 32)%nat) as [Hi|Hi].
    + rewrite !lookup_seq_lt by done. simpl. by rewrite Hall.
    + by rewrite !lookup_seq_ge by lia.
Qed.

(** ** Unregistration and the requests of other coordinators *)

Lemma findCoordinatorByPhone_delete_other Q P d :
  Q <> P ->
  findCoordinatorByPhone Q (deleteCoordinatorByPhone P d)
  = findCoordinatorByPhone Q d.
Proof.
  intros HQ. unfold findCoordinatorByPhone, deleteCoordinatorByPhone; simpl.
  induction (coordinators d) as [|c cs IH]; [done|].
  destruct (decide (Coordinator.phoneNumber c = P)) as [Hc|Hc].
  - rewrite filter_cons_False by tauto. simpl.
    rewrite (proj2 (strict_eq_false _ Q)) by congruence. done.
  - rewrite filter_cons_True by done. simpl. by rewrite IH.
Qed.

Lemma behind_bearer {A : Type} a tok (m : M A) w :
  snd ((verifyBearerAuth a tok ;;; m) w)
  = if bool_decide (a = Some tok) then snd (m w) else w.
Proof.
  unfold bind, verifyBearerAuth, ret, throw. by destruct (bool_decide _).
Qed.

(** X3: [unregister] fails with NotFound, changing nothing, when no
    coordinator is stored for the phone number; otherwise it succeeds and
    removes every record of that phone number, while the records of other
    phone numbers, the members delegated so far and the token generator stay
    as they were. *)
Theorem unregister_outcome P w :
  (findCoordinatorByPhone P (db w) = None ->
   unregister P w = (Throw (notFoundError "Coordinator not found"), w))
  /\ (is_Some (findCoordinatorByPhone P (db w)) ->
      let w' := snd (unregister P w) in
      fst (unregister P w)
      = Normal "Coordinator successfully unregistered"%string
      /\ coordinators_of P (db w') = []
      /\ findCoordinatorByPhone P (db w') = None
      /\ (forall Q, Q <> P ->
            findCoordinatorByPhone Q (db w') = findCoordinatorByPhone Q (db w))
      /\ members (db w') = members (db w)
      /\ drawn w' = drawn w).
Proof.
  rewrite unregister_run. split.
  - by intros ->.
  - intros [c ->]. cbv zeta. cbn [fst snd with_db db drawn].
    split; [done|]. split; [apply coordinators_of_delete|].
    split; [apply findCoordinatorByPhone_delete|].
    split; [|done]. intros Q HQ. by apply findCoordinatorByPhone_delete_other.
Qed.

(** X4: once a coordinator has been unregistered it is unknown to every
    handler: a second unregister fails NotFound, a login fails Unauthorized
    whatever name is supplied, and a delegation in its name fails
    Unauthorized whatever credential is presented; none of them changes the
    world. *)
Theorem unregistered_is_unknown P w message w' :
  unregister P w = (Normal message, w') ->
  unregister P w' = (Throw (notFoundError "Coordinator not found"), w')
  /\ (forall env N,
        login env P N w'
        = (Throw (unauthorizedError "Invalid phone number or project name"),
           w'))
  /\ (forall env authorization Mb,
        delegateMember env authorization P Mb w'
        = (Throw (unauthorizedError "Invalid coordinator phone number"),
           w')).
Proof.
  rewrite unregister_run.
  destruct (findCoordinatorByPhone P (db w)); [|done]. intros [= _ <-].
  assert (findCoordinatorByPhone P
            (db (with_db w (deleteCoordinatorByPhone P (db w)))) = None)
    as Hgone by apply findCoordinatorByPhone_delete.
  split; [by rewrite unregister_run, Hgone|]. split.
  - intros env N. by rewrite login_run, Hgone.
  - intros env a Mb. by rewrite delegateMember_run, Hgone.
Qed.

(** X5: a request only ever touches the coordinator record of the phone
    number it names: whatever the request and its outcome, the record found
    for any other phone number is the same before and after. *)
Theorem other_coordinators_untouched tok env req w Q :
  Q <> coordinator_of req ->
  findCoordinatorByPhone Q (db (authRoutes tok env req w))
  = findCoordinatorByPhone Q (db w).
Proof.
  intros HQ. destruct req as [a P N|a P|a P N|a C Mb]; simpl in HQ;
    unfold authRoutes; rewrite ?behind_bearer;
    try (destruct (bool_decide (a = Some tok)); [|done]).
  - rewrite register_run. destruct (decodeURIComponent N) as [D|e]; [|done].
    cbv zeta.
    destruct (findCoordinatorByProject D _);
      [apply findCoordinatorByPhone_delete_other; done|].
    destruct (find_project D _);
      [apply findCoordinatorByPhone_delete_other; done|].
    cbn [snd with_db db]. rewrite findCoordinatorByPhone_save_other by done.
    by apply findCoordinatorByPhone_delete_other.
  - rewrite unregister_run.
    destruct (findCoordinatorByPhone P (db w)); [|done].
    by apply findCoordinatorByPhone_delete_other.
  - rewrite login_run.
    destruct (findCoordinatorByPhone P (db w)) as [c|] eqn:HP; [|done].
    destruct (_ === _); [|done].
    destruct (decodeURIComponent _); [|done].
    destruct (find_project _ _); [|done]. cbn [snd db].
    apply findCoordinatorByPhone_save_other. simpl.
    apply findCoordinatorByPhone_Some in HP as [_ HP]. congruence.
  - rewrite delegateMember_run.
    destruct (findCoordinatorByPhone C (db w)) as [c|]; [|done].
    destruct (truthy (Coordinator.token c)); [|done].
    destruct (truthy (findProjectByCoordinatorPhone C (db w))); [|done].
    destruct (bool_decide _); [|done].
    destruct (test phone_pattern Mb); [|done].
    by destruct (findMemberByPhone Mb (db w)).
Qed.

(** X6: on the three routes behind the server's bearer token, a request
    that does not present that token changes nothing at all; in particular
    a registration without it deletes no record. *)
Theorem server_token_required tok env req w :
  behind_server_token req = true ->
  authorization_of req <> Some tok ->
  authRoutes tok env req w = w.
Proof.
  intros Hroute Hauth.
  destruct req as [a P N|a P|a P N|a C Mb]; simpl in *; try done;
    by rewrite behind_bearer, bool_decide_false.
Qed.

(** ** From registration to delegation *)

Lemma login_success_state env P N w r w' :
  login env P N w = (Normal r, w') ->
  issued_token r = next_token w
  /\ issued_projectName r = N
  /\ findCoordinatorByPhone P (db w')
     = Some (Coordinator.mk P N (Some (next_token w)) (now env))
  /\ members (db w') = members (db w)
  /\ drawn w' = (drawn w + 32)%nat.
Proof.
  rewrite login_run.
  destruct (findCoordinatorByPhone P (db w)) as [c|] eqn:HP; [|done].
  destruct (_ === _) eqn:Hname; [|done].
  destruct (decodeURIComponent _); [|done].
  destruct (find_project _ _); [|done].
  apply strict_eq_true in Hname as <-.
  apply findCoordinatorByPhone_Some in HP as [_ <-].
  intros [= <- <-]. repeat split.
  apply (findCoordinatorByPhone_save (Coordinator.mk _ _ _ _)).
Qed.

(** X7: a successful registration leaves the coordinator without token, so
    every delegation in its name fails Unauthorized, whatever credential is
    presented (a token issued before the registration included), until the
    coordinator logs in again. *)
Theorem register_revokes_delegation env P N r w w' :
  register env P N w = (Normal r, w') ->
  forall env' authorization Mb,
    delegateMember env' authorization P Mb w'
    = (Throw (unauthorizedError "Invalid coordinator phone number"), w').
Proof.
  intros Hreg env' a Mb.
  apply register_success in Hreg as (D & _ & _ & _ & _ & _ & Hfind).
  by rewrite delegateMember_run, Hfind.
Qed.

(** X8: a login replaces the coordinator's token: afterwards a delegation
    that presents anything but the token just issued, an earlier token of
    the same coordinator included, fails Unauthorized and changes nothing. *)
Theorem login_rotates_token env P N w r w' :
  login env P N w = (Normal r, w') ->
  forall env' authorization Mb,
    authorization <> Some (issued_token r) ->
    fails_with Unauthorized
      (fst (delegateMember env' authorization P Mb w'))
    /\ snd (delegateMember env' authorization P Mb w') = w'.
Proof.
  intros Hlogin env' a Mb Ha.
  apply login_success_state in Hlogin as (Htok & _ & Hfind & _).
  rewrite Htok in Ha.
  rewrite delegateMember_run, Hfind. simpl Coordinator.token.
  rewrite (is_token_truthy _ (next_token_is_token w)).
  destruct (truthy _); [|split; [by eexists | done]].
  rewrite bool_decide_false by done. split; [by eexists | done].
Qed.

(** X9: the delegation chain: after a successful login under a non-empty
    project name, a delegation that presents the issued token for a
    well-formed phone number not yet a member succeeds; it answers with the
    generator's next token and the coordinator's project name, and the new
    member is found under its phone number, bound to that coordinator and
    project. *)
Theorem login_then_delegate env P N w r w' env' Mb :
  login env P N w = (Normal r, w') ->
  N <> [] ->
  e164_like Mb ->
  findMemberByPhone Mb (db w) = None ->
  let w'' := snd (delegateMember env' (Some (issued_token r)) P Mb w') in
  fst (delegateMember env' (Some (issued_token r)) P Mb w')
  = Normal (mkCredential (next_token w') N)
  /\ findMemberByPhone Mb (db w'')
     = Some (Member.mk Mb (next_token w') P N (now env'))
  /\ length (members (db w'')) = S (length (members (db w))).
Proof.
  intros Hlogin HN HMb Hnew. cbv zeta.
  apply login_success_state in Hlogin as (Htok & _ & Hfind & Hmembers & _).
  assert (findMemberByPhone Mb (db w') = None) as Hnew'.
  { unfold findMemberByPhone in *. by rewrite Hmembers. }
  rewrite Htok, delegateMember_run, Hfind. simpl Coordinator.token.
  rewrite (is_token_truthy _ (next_token_is_token w)).
  unfold findProjectByCoordinatorPhone. rewrite Hfind. simpl.
  destruct N as [|n N]; [done|]. simpl.
  rewrite bool_decide_true by done.
  rewrite (proj2 (test_phone_pattern Mb) HMb), Hnew'. cbn [fst snd db].
  split; [done|]. split.
  - apply (findMemberByPhone_save (Member.mk Mb _ _ _ _)).
  - unfold saveMember; simpl. rewrite upsert_absent by done.
    rewrite length_app, Hmembers. simpl. lia.
Qed.

(** X10: a coordinator bound to the empty project name can log in (when the
    registry lists a project of that name) but can never delegate: the
    handler takes the empty name for no project, and the delegation fails
    Unauthorized even with the token just issued. *)
Theorem empty_name_cannot_delegate env P w r w' :
  login env P [] w = (Normal r, w') ->
  forall env' Mb,
    delegateMember env' (Some (issued_token r)) P Mb w'
    = (Throw (unauthorizedError "No project found for coordinator"), w').
Proof.
  intros Hlogin env' Mb.
  apply login_success_state in Hlogin as (Htok & _ & Hfind & _).
  rewrite delegateMember_run, Hfind. simpl Coordinator.token.
  rewrite (is_token_truthy _ (next_token_is_token w)).
  unfold findProjectByCoordinatorPhone. by rewrite Hfind.
Qed.

(** X11: a member phone number is delegated once: after a successful
    delegation, repeating the request fails with the BadRequest "Phone
    number already registered" and changes nothing. *)
Theorem delegate_twice env authorization C Mb w r w' :
  delegateMember env authorization C Mb w = (Normal r, w') ->
  forall env',
    delegateMember env' authorization C Mb w'
    = (Throw (badRequestError "Phone number already registered"), w').
Proof.
  rewrite delegateMember_run.
  destruct (findCoordinatorByPhone C (db w)) as [c|] eqn:HC; [|done].
  destruct (truthy (Coordinator.token c)) as [T|] eqn:HT; [|done].
  destruct (truthy (findProjectByCoordinatorPhone C (db w)))
    as [name|] eqn:Hname; [|done].
  destruct (bool_decide _) eqn:Hauth; [|done].
  destruct (test phone_pattern Mb) eqn:Htest; [|done].
  destruct (findMemberByPhone Mb (db w)) eqn:HMb; [done|].
  intros [= _ <-] env'. rewrite delegateMember_run. cbn [db].
  assert (findCoordinatorByPhone C
            (saveMember
               (Member.mk Mb (next_token w) (Coordinator.phoneNumber c) name
                  (now env)) (db w))
          = Some c) as -> by done.
  rewrite HT.
  assert (findProjectByCoordinatorPhone C
            (saveMember
               (Member.mk Mb (next_token w) (Coordinator.phoneNumber c) name
                  (now env)) (db w))
          = findProjectByCoordinatorPhone C (db w)) as -> by done.
  rewrite Hname, Hauth, Htest.
  by rewrite (findMemberByPhone_save (Member.mk Mb _ _ _ _)).
Qed.

(** ** What every reachable store looks like *)

Lemma elem_of_upsert {A : Type} (same : A -> bool) (x y : A) (l : list A) :
  y ∈ upsert same x l -> y = x \/ y ∈ l.
Proof.
  induction l as [|z l IH]; simpl.
  - intros ->%list_elem_of_singleton. by left.
  - destruct (same z).
    + intros [->|Hy]%elem_of_cons; [by left|]. right. by right.
    + intros [->|Hy]%elem_of_cons; [right; by left|].
      destruct (IH Hy) as [->|?]; [by left|]. right. by right.
Qed.

(** What a request does to the members: nothing, or one record more at the
    end, that of a well-formed phone number unknown so far. *)
Lemma authRoutes_members tok env req w :
  members (db (authRoutes tok env req w)) = members (db w)
  \/ exists m,
       members (db (authRoutes tok env req w)) = members (db w) ++ [m]
       /\ member_ok m
       /\ findMemberByPhone (Member.phoneNumber m) (db w) = None.
Proof.
  destruct req as [a P N|a P|a P N|a C Mb]; unfold authRoutes;
    rewrite ?behind_bearer;
    try (destruct (bool_decide (a = Some tok)); [|by left]).
  - left. rewrite register_run. destruct (decodeURIComponent N); [|done].
    cbv zeta. destruct (findCoordinatorByProject _ _); [done|].
    by destruct (find_project _ _).
  - left. rewrite unregister_run.
    by destruct (findCoordinatorByPhone P (db w)).
  - left. rewrite login_run.
    destruct (findCoordinatorByPhone P (db w)); [|done].
    destruct (_ === _); [|done].
    destruct (decodeURIComponent _); [|done].
    by destruct (find_project _ _).
  - rewrite delegateMember_run.
    destruct (findCoordinatorByPhone C (db w)) as [c|]; [|by left].
    destruct (truthy (Coordinator.token c)); [|by left].
    destruct (truthy (findProjectByCoordinatorPhone C (db w)))
      as [name|] eqn:Hname; [|by left].
    destruct (bool_decide _); [|by left].
    destruct (test phone_pattern Mb) eqn:Htest; [|by left].
    destruct (findMemberByPhone Mb (db w)) eqn:HMb; [by left|].
    right. eexists. cbn [snd db]. unfold saveMember; simpl.
    rewrite upsert_absent by done. split; [done|]. split; [|done].
    split; [by apply test_phone_pattern|]. split.
    + apply next_token_is_token.
    + simpl. by apply truthy_Some in Hname as [_ ?].
Qed.

Lemma authRoutes_stored_tokens tok env req w :
  stored_tokens_ok (db w) -> stored_tokens_ok (db (authRoutes tok env req w)).
Proof.
  intros Hok.
  assert (forall P, stored_tokens_ok (deleteCoordinatorByPhone P (db w)))
    as Hdel.
  { intros P c t Hc. apply elem_of_deleteCoordinatorByPhone in Hc as [_ Hc].
    by apply Hok. }
  assert (forall c' d, stored_tokens_ok d ->
            (forall t, Coordinator.token c' = Some t -> is_token t) ->
            stored_tokens_ok (saveCoordinator c' d)) as Hsave.
  { intros c' d Hd Hc' c t Hc. unfold saveCoordinator in Hc; simpl in Hc.
    apply elem_of_upsert in Hc as [->|Hc]; [apply Hc' | by apply Hd]. }
  destruct req as [a P N|a P|a P N|a C Mb]; unfold authRoutes;
    rewrite ?behind_bearer;
    try (destruct (bool_decide (a = Some tok)); [|done]).
  - rewrite register_run. destruct (decodeURIComponent N); [|done].
    cbv zeta. destruct (findCoordinatorByProject _ _); [apply Hdel|].
    destruct (find_project _ _); [apply Hdel|]. cbn [snd with_db db].
    apply Hsave; [apply Hdel | done].
  - rewrite unregister_run.
    destruct (findCoordinatorByPhone P (db w)); [apply Hdel | done].
  - rewrite login_run.
    destruct (findCoordinatorByPhone P (db w)); [|done].
    destruct (_ === _); [|done].
    destruct (decodeURIComponent _); [|done].
    destruct (find_project _ _); [|done]. cbn [snd db].
    apply Hsave; [done|]. intros t' [= <-]. apply next_token_is_token.
  - rewrite delegateMember_run.
    destruct (findCoordinatorByPhone C (db w)) as [c|]; [|done].
    destruct (truthy (Coordinator.token c)); [|done].
    destruct (truthy (findProjectByCoordinatorPhone C (db w))); [|done].
    destruct (bool_decide _); [|done].
    destruct (test phone_pattern Mb); [|done].
    by destruct (findMemberByPhone Mb (db w)).
Qed.

Lemma serve_stored_tokens tok requests w :
  stored_tokens_ok (db w) -> stored_tokens_ok (db (serve tok requests w)).
Proof.
  revert w. induction requests as [|[env req] requests IH]; [done|].
  intros w Hw. apply IH. by apply authRoutes_stored_tokens.
Qed.

(** X12: in every state that a sequence of requests reaches from the empty
    store, a coordinator's token is either absent or 64 lowercase
    hexadecimal digits; it is never the empty string, so the handler's test
    for a missing token turns down exactly the coordinators that have not
    logged in since their registration. *)
Theorem stored_tokens_well_formed tok source requests :
  let w := serve tok requests (start source) in
  forall c, c ∈ coordinators (db w) ->
    match Coordinator.token c with
    | None => truthy (Coordinator.token c) = None
    | Some t => is_token t /\ truthy (Coordinator.token c) = Some t
    end.
Proof.
  intros w.
  assert (stored_tokens_ok (db w)) as Hok.
  { apply serve_stored_tokens. by intros c t Hc%elem_of_nil. }
  intros c Hc. destruct (Coordinator.token c) as [t'|] eqn:Ht; [|done].
  pose proof (Hok c t' Hc Ht) as Htok.
  split; [done | by apply is_token_truthy].
Qed.

(** X13: in every reachable state the members have pairwise different phone
    numbers, and every member record holds a phone number of the accepted
    form, a token of 64 lowercase hexadecimal digits and a non-empty project
    name. *)
Theorem members_well_formed tok source requests :
  let w := serve tok requests (start source) in
  NoDup (Member.phoneNumber <$> members (db w))
  /\ Forall member_ok (members (db w)).
Proof.
  cbv zeta.
  assert (NoDup (Member.phoneNumber <$> members (db (start source)))
          /\ Forall member_ok (members (db (start source)))) as Hstart.
  { split; [apply NoDup_nil_2 | constructor]. }
  revert Hstart. generalize (start source).
  induction requests as [|[env req] requests IH]; [done|].
  intros w [Hdup Hall]. apply IH. cbn [fst snd].
  destruct (authRoutes_members tok env req w) as [->|(m & -> & Hm & Hnew)];
    [done|].
  split.
  - apply NoDup_fmap_snoc; [done|]. intros m' Hm'.
    unfold findMemberByPhone in Hnew. rewrite find_None_elem in Hnew.
    by apply strict_eq_false, Hnew.
  - apply Forall_app. split; [done|]. by constructor.
Qed.

(** X14: member records are never changed or removed: whatever requests
    are served, registrations and unregistrations of their coordinators
    included, the members stored before are still there, unchanged and in
    the same order, followed by those delegated since. *)
Theorem members_only_grow tok requests w :
  members (db w) `prefix_of` members (db (serve tok requests w)).
Proof.
  revert w. induction requests as [|[env req] requests IH]; [done|].
  intros w. etrans; [|apply IH]. cbn [fst snd].
  destruct (authRoutes_members tok env req w) as [->|(m & -> & _)];
    [done | by apply prefix_app_r].
Qed.

(** ** More on the decoder *)

Lemma decoded_cases_length Octets R :
  decoded Octets R = Throw URIError
  \/ exists S, decoded Octets R = append_to S R /\ (length S <= 2)%nat.
Proof.
  unfold decoded. destruct (utf8_code_point Octets) as [V|]; [|by left].
  right. eexists. split; [done|]. unfold UTF16EncodeCodePoint.
  destruct (V <=? 65535); simpl; lia.
Qed.

(** One round of the decoder, with what it does to the length. *)
Lemma decodeURIComponent_step_length C s :
  decodeURIComponent (C :: s) = Throw URIError
  \/ exists consumed rest S,
       C :: s = consumed ++ rest
       /\ well_escaped consumed
       /\ decodeURIComponent (C :: s)
          = append_to S (decodeURIComponent rest)
       /\ (C <> PERCENT -> consumed = [C] /\ S = [C])
       /\ (C = PERCENT -> (length S < length consumed)%nat).
Proof.
  rewrite decodeURIComponent_cons.
  destruct (N.eqb_spec C PERCENT) as [->|HC]; simpl negb; cbv iota.
  2:{ right. exists [C], s, [C]. repeat split; try done.
      by repeat constructor. }
  destruct (with_escape_inv (PERCENT :: s) (Throw URIError) (fun B s1 =>
      match leading_ones B with
      | 0%nat => append_to [B] (decodeURIComponent s1)
      | 2%nat =>
          with_escape s1 (Throw URIError) (fun b1 s2 =>
            decoded [B; b1] (decodeURIComponent s2))
      | 3%nat =>
          with_escape s1 (Throw URIError) (fun b1 s2 =>
            with_escape s2 (Throw URIError) (fun b2 s3 =>
              decoded [B; b1; b2] (decodeURIComponent s3)))
      | 4%nat =>
          with_escape s1 (Throw URIError) (fun b1 s2 =>
            with_escape s2 (Throw URIError) (fun b2 s3 =>
              with_escape s3 (Throw URIError) (fun b3 s4 =>
                decoded [B; b1; b2; b3] (decodeURIComponent s4))))
      | _ => Throw URIError
      end)) as [->|(h1 & h2 & s1 & B & [= ->] & HB & ->)]; [by left|].
  assert (is_Some (ParseHexOctet h1 h2)) as HB' by (by rewrite HB).
  destruct (leading_ones B) as [|[|[|[|[|?]]]]]; try by left.
  - right. exists [PERCENT; h1; h2], s1, [B].
    repeat split; try done; [by repeat constructor | simpl; lia].
  - escape_cases a1 a2 s2 b1 Hb1.
    assert (is_Some (ParseHexOctet a1 a2)) by (by rewrite Hb1).
    destruct (decoded_cases_length [B; b1] (decodeURIComponent s2))
      as [->|(S & -> & HS)]; [by left|].
    right. exists [PERCENT; h1; h2; PERCENT; a1; a2], s2, S.
    repeat split; try done; [by repeat constructor | simpl; lia].
  - escape_cases a1 a2 s2 b1 Hb1. escape_cases c1 c2 s3 b2 Hb2.
    assert (is_Some (ParseHexOctet a1 a2)) by (by rewrite Hb1).
    assert (is_Some (ParseHexOctet c1 c2)) by (by rewrite Hb2).
    destruct (decoded_cases_length [B; b1; b2] (decodeURIComponent s3))
      as [->|(S & -> & HS)]; [by left|].
    right. exists [PERCENT; h1; h2; PERCENT; a1; a2; PERCENT; c1; c2], s3, S.
    repeat split; try done; [by repeat constructor | simpl; lia].
  - escape_cases a1 a2 s2 b1 Hb1. escape_cases c1 c2 s3 b2 Hb2.
    escape_cases d1 d2 s4 b3 Hb3.
    assert (is_Some (ParseHexOctet a1 a2)) by (by rewrite Hb1).
    assert (is_Some (ParseHexOctet c1 c2)) by (by rewrite Hb2).
    assert (is_Some (ParseHexOctet d1 d2)) by (by rewrite Hb3).
    destruct (decoded_cases_length [B; b1; b2; b3] (decodeURIComponent s4))
      as [->|(S & -> & HS)]; [by left|].
    right.
    exists [PERCENT; h1; h2; PERCENT; a1; a2; PERCENT; c1; c2;
            PERCENT; d1; d2], s4, S.
    repeat split; try done; [by repeat constructor | simpl; lia].
Qed.

Lemma append_to_Normal S R r :
  append_to S R = Normal r -> exists r', R = Normal r' /\ r = S ++ r'.
Proof. destruct R as [r'|]; simpl; [|done]. intros [= <-]. by exists r'. Qed.

Lemma decodeURIComponent_plain s :
  PERCENT ∉ s -> decodeURIComponent s = Normal s.
Proof.
  induction s as [|C s IH]; [done|]. intros Hs.
  apply not_elem_of_cons in Hs as [HC Hs]. rewrite decodeURIComponent_cons.
  rewrite (proj2 (N.eqb_neq C PERCENT)) by done. simpl.
  by rewrite IH.
Qed.

Lemma decodeURIComponent_length s : forall r,
  decodeURIComponent s = Normal r ->
  (length r <= length s)%nat
  /\ (PERCENT ∈ s -> (length r < length s)%nat).
Proof.
  remember (length s) as n eqn:Hn. revert s Hn.
  induction n as [n IH] using lt_wf_ind. intros s Hn r.
  destruct s as [|C s].
  { intros [= <-]. split; [simpl; lia|]. by intros ?%elem_of_nil. }
  destruct (decodeURIComponent_step_length C s)
    as [->|(consumed & rest & S & Hs & Hok & -> & Hplain & Hescape)];
    [done|].
  intros (r' & Hrest & ->)%append_to_Normal.
  assert (length (C :: s) = length consumed + length rest)%nat as Hlen
    by (by rewrite Hs, length_app).
  destruct (N.eq_dec C PERCENT) as [HC|HC].
  - specialize (Hescape HC).
    assert (length rest < n)%nat as Hshorter by lia.
    destruct (IH (length rest) Hshorter rest eq_refl r' Hrest) as [Hle _].
    rewrite length_app. split; [lia|]. intros _. lia.
  - destruct (Hplain HC) as [-> ->]. injection Hs as <-.
    assert (length s < n)%nat as Hshorter by (simpl in Hn; lia).
    destruct (IH (length s) Hshorter s eq_refl r' Hrest) as [Hle Hlt].
    simpl in Hn |- *. split; [lia|].
    intros [?|Hin]%elem_of_cons; [done|]. specialize (Hlt Hin). lia.
Qed.

Lemma well_escaped_app s1 s2 :
  well_escaped s1 -> well_escaped s2 -> well_escaped (s1 ++ s2).
Proof.
  induction 1 as [|C s HC _ IH|h1 h2 s Hhex _ IH]; simpl; [done| |];
    intros Hs2.
  - apply well_escaped_char; [done | by apply IH].
  - apply well_escaped_escape; [done | by apply IH].
Qed.

Lemma decodeURIComponent_well_escaped s r :
  decodeURIComponent s = Normal r -> well_escaped s.
Proof.
  destruct (decoder_rounds well_escaped) with (s := s) as [->|?];
    [constructor | |done|done].
  intros consumed rest _ Hc Hr. by apply well_escaped_app.
Qed.

(** X15: the decoder returns a string as it is exactly when the string holds
    no [%]; a name that holds one is never stored the way it was sent. *)
Theorem decodeURIComponent_identity s :
  decodeURIComponent s = Normal s <-> PERCENT ∉ s.
Proof.
  split; [|apply decodeURIComponent_plain].
  intros Hs Hin. destruct (decodeURIComponent_length s s Hs) as [_ Hlt].
  specialize (Hlt Hin). lia.
Qed.

(** Decoding never lengthens a string, and shortens every string that holds
    a [%]; and a string that decodes has each of its [%] followed by two
    hexadecimal digits. *)
Lemma decodeURIComponent_shortens s r :
  decodeURIComponent s = Normal r ->
  (length r <= length s)%nat
  /\ (PERCENT ∈ s -> (length r < length s)%nat)
  /\ well_escaped s.
Proof.
  intros Hs. destruct (decodeURIComponent_length s r Hs) as [Hle Hlt].
  split; [done|]. split; [done|]. by apply (decodeURIComponent_well_escaped s r).
Qed.

(** X16: a registration under a name in which some [%] starts no escape
    throws the decoder's [URIError] before the store is touched: the record
    the phone number had is still there. *)
Theorem register_undecodable env P N w :
  ~ well_escaped N ->
  register env P N w = (Throw URIError, w).
Proof.
  intros Hbad. rewrite register_run.
  destruct (decodeURIComponent N) as [D|e] eqn:HN.
  - destruct Hbad. by apply (decodeURIComponent_well_escaped N D).
  - by apply decodeURIComponent_throws in HN as ->.
Qed.

(** X17: for a name without [%] the round trip works: after a successful
    registration, a login with the very same arguments succeeds as soon as
    the registry lists a project of that name, and issues the generator's
    next token. *)
Theorem plain_name_round_trip env P N r w w' env' p :
  PERCENT ∉ N ->
  register env P N w = (Normal r, w') ->
  find_project N (listProjects env') = Some p ->
  fst (login env' P N w') = Normal (mkCredential (next_token w') N)
  /\ findCoordinatorByPhone P (db (snd (login env' P N w')))
     = Some (Coordinator.mk P N (Some (next_token w')) (now env')).
Proof.
  intros Hplain Hreg Hlisted.
  pose proof (decodeURIComponent_plain N Hplain) as HN.
  apply register_success in Hreg as (D & HD & _ & _ & _ & _ & Hfind).
  assert (D = N) as -> by congruence.
  rewrite login_run, Hfind. simpl Coordinator.projectName.
  rewrite strict_eq_refl, HN, Hlisted. cbn [fst snd db]. split; [done|].
  apply (findCoordinatorByPhone_save (Coordinator.mk P N _ _)).
Qed.

(** ** More on registration and on the phone number pattern *)

Lemma findCoordinatorByProject_delete_None D Q d :
  findCoordinatorByProject D d = None ->
  findCoordinatorByProject D (deleteCoordinatorByPhone Q d) = None.
Proof.
  rewrite !findCoordinatorByProject_None. intros Hd c Hc.
  apply elem_of_deleteCoordinatorByPhone in Hc as [_ Hc]. by apply Hd.
Qed.

(** X18: the pattern accepts only strings of 2 to 16 characters made of
    ASCII digits and at most a leading [+], none starting with [0]: no
    blank, letter or non-ASCII digit gets through. *)
Theorem phone_pattern_bounds s :
  test phone_pattern s = true ->
  (2 <= length s <= 16)%nat
  /\ Forall (fun c => c = PLUS \/ is_digit c) s
  /\ head s <> Some 48.
Proof.
  intros (first & further & Hs & Hfirst & Hall & Hlen)%test_phone_pattern.
  assert (Forall (fun c => c = PLUS \/ is_digit c) (first :: further)) as Hd.
  { constructor; [right; unfold is_digit; lia|].
    eapply list.Forall_impl; [exact Hall|]. intros c Hc. by right. }
  destruct Hs as [-> | ->]; simpl.
  - split; [lia|]. split; [done|]. intros [= ->]. lia.
  - split; [lia|]. split; [|done]. constructor; [by left | done].
Qed.

(** X19: a registration that fails for a phone number without record
    changes nothing: only a coordinator that was registered before can lose
    its record to a failed registration. *)
Theorem failed_first_registration env P N w e :
  findCoordinatorByPhone P (db w) = None ->
  fst (register env P N w) = Throw e ->
  snd (register env P N w) = w.
Proof.
  intros HP. rewrite register_run.
  destruct (decodeURIComponent N) as [D|e']; [|done]. cbv zeta.
  rewrite (deleteCoordinatorByPhone_absent P (db w) HP).
  destruct (findCoordinatorByProject D (db w)); [by destruct w|].
  destruct (find_project D _); [by destruct w | done].
Qed.

(** X20: unregistering a coordinator frees its project name: in a store
    whose project names are unique, any phone number can afterwards register
    under that name, provided the registry does not list it. *)
Theorem unregister_frees_name env P Q N w c message w' :
  unique_projects (db w) ->
  findCoordinatorByPhone P (db w) = Some c ->
  unregister P w = (Normal message, w') ->
  decodeURIComponent N = Normal (Coordinator.projectName c) ->
  find_project (Coordinator.projectName c) (listProjects env) = None ->
  fst (register env Q N w')
  = Normal (mkRegistration Q (Coordinator.projectName c))
  /\ findProjectByCoordinatorPhone Q (db (snd (register env Q N w')))
     = Some (Coordinator.projectName c).
Proof.
  intros Hu HP Hun HN Hreg. rewrite unregister_run, HP in Hun.
  injection Hun as _ <-. rewrite register_run, HN. cbv zeta.
  cbn [with_db db].
  rewrite (findCoordinatorByProject_delete_None _ Q
             (deleteCoordinatorByPhone P (db w)))
    by (by apply (own_name_free P _ (db w) c)).
  rewrite Hreg. cbn [fst snd db with_db]. split; [done|].
  unfold findProjectByCoordinatorPhone.
  pose proof (findCoordinatorByPhone_save
                (Coordinator.mk Q (Coordinator.projectName c) None (now env))
                (deleteCoordinatorByPhone Q
                   (deleteCoordinatorByPhone P (db w)))) as Hfind.
  simpl in Hfind. by rewrite Hfind.
Qed.

(** ** The further properties on the sample run *)

Lemma generateToken_collision_witness :
  coordinator_token = next_token (start sample_entropy).
Proof.
  apply (generateToken_collision registered_world (start sample_entropy)
           coordinator_token (next_token (start sample_entropy)));
    [reflexivity..|].
  intros i _. reflexivity.
Defined.

Lemma unregister_outcome_witness :
  findCoordinatorByPhone coordinator_phone
    (db (snd (unregister coordinator_phone delegated_world))) = None
  /\ members (db (snd (unregister coordinator_phone delegated_world)))
     = members (db delegated_world).
Proof.
  destruct (unregister_outcome coordinator_phone delegated_world)
    as [_ Hsome].
  destruct Hsome as (_ & _ & Hgone & _ & Hmembers & _); [by eexists|].
  split; [exact Hgone | exact Hmembers].
Defined.

Lemma unregistered_is_unknown_witness :
  login after_creation coordinator_phone (str "Field1")
    (snd (unregister coordinator_phone logged_in_world))
  = (Throw (unauthorizedError "Invalid phone number or project name"),
     snd (unregister coordinator_phone logged_in_world)).
Proof.
  destruct (unregistered_is_unknown coordinator_phone logged_in_world
              "Coordinator successfully unregistered"
              (snd (unregister coordinator_phone logged_in_world)) eq_refl)
    as (_ & Hlogin & _).
  exact (Hlogin after_creation (str "Field1")).
Defined.

Lemma other_coordinators_untouched_witness :
  findCoordinatorByPhone coordinator_phone
    (db (authRoutes server_token before_creation
           (POST_auth_register (Some server_token) (str "+15550002222")
              (str "Field1"))
           logged_in_world))
  = findCoordinatorByPhone coordinator_phone (db logged_in_world).
Proof.
  apply other_coordinators_untouched. by vm_compute.
Defined.

Lemma server_token_required_witness :
  authRoutes server_token after_creation
    (POST_auth_register (Some (str "guess")) coordinator_phone
       (str "Field1"))
    logged_in_world
  = logged_in_world.
Proof.
  apply server_token_required; [reflexivity | by vm_compute].
Defined.

Lemma register_revokes_delegation_witness :
  delegateMember after_creation (Some coordinator_token) coordinator_phone
    (str "+15557654321")
    (snd (register before_creation coordinator_phone (str "Camp%20B")
            logged_in_world))
  = (Throw (unauthorizedError "Invalid coordinator phone number"),
     snd (register before_creation coordinator_phone (str "Camp%20B")
            logged_in_world)).
Proof.
  apply (register_revokes_delegation before_creation coordinator_phone
           (str "Camp%20B")
           (mkRegistration coordinator_phone (str "Camp B"))
           logged_in_world).
  reflexivity.
Defined.

Lemma login_rotates_token_witness :
  snd (delegateMember after_creation (Some coordinator_token)
         coordinator_phone (str "+15557654321")
         (snd (login after_creation coordinator_phone (str "Field1")
                 logged_in_world)))
  = snd (login after_creation coordinator_phone (str "Field1")
           logged_in_world).
Proof.
  destruct (login_rotates_token after_creation coordinator_phone
              (str "Field1") logged_in_world
              (mkCredential (next_token logged_in_world) (str "Field1"))
              (snd (login after_creation coordinator_phone (str "Field1")
                      logged_in_world))
              eq_refl after_creation (Some coordinator_token)
              (str "+15557654321"))
    as [_ Hsame]; [by vm_compute|].
  exact Hsame.
Defined.

Lemma login_then_delegate_witness :
  fst (delegateMember after_creation (Some coordinator_token)
         coordinator_phone member_phone logged_in_world)
  = Normal (mkCredential (next_token logged_in_world) (str "Field1")).
Proof.
  destruct (login_then_delegate after_creation coordinator_phone
              (str "Field1") registered_world
              (mkCredential coordinator_token (str "Field1"))
              logged_in_world after_creation member_phone)
    as [Hok _]; [reflexivity|by vm_compute| |reflexivity|exact Hok].
  apply test_phone_pattern. reflexivity.
Defined.

Lemma empty_name_cannot_delegate_witness :
  fst (delegateMember nameless_listed
         (Some (next_token (start sample_entropy))) coordinator_phone
         member_phone nameless_world)
  = Throw (unauthorizedError "No project found for coordinator").
Proof.
  exact (f_equal fst
           (empty_name_cannot_delegate nameless_listed coordinator_phone
              (snd (register before_creation coordinator_phone []
                      (start sample_entropy)))
              (mkCredential (next_token (start sample_entropy)) [])
              nameless_world eq_refl nameless_listed member_phone)).
Defined.

Lemma delegate_twice_witness :
  delegateMember after_creation (Some coordinator_token) coordinator_phone
    member_phone delegated_world
  = (Throw (badRequestError "Phone number already registered"),
     delegated_world).
Proof.
  apply (delegate_twice after_creation (Some coordinator_token)
           coordinator_phone member_phone logged_in_world
           (mkCredential (next_token logged_in_world) (str "Field1"))).
  reflexivity.
Defined.

Lemma stored_tokens_well_formed_witness : is_token coordinator_token.
Proof.
  pose proof (stored_tokens_well_formed server_token sample_entropy
                [(before_creation,
                  POST_auth_register (Some server_token) coordinator_phone
                    (str "Field1"));
                 (after_creation,
                  POST_auth_coordinator (Some server_token)
                    coordinator_phone (str "Field1"))]
                (Coordinator.mk coordinator_phone (str "Field1")
                   (Some coordinator_token) (now after_creation))) as Htok.
  simpl Coordinator.token in Htok. apply Htok. vm_compute. by left.
Defined.

Lemma register_undecodable_witness :
  register after_creation coordinator_phone (str "100%") logged_in_world
  = (Throw URIError, logged_in_world).
Proof.
  apply register_undecodable. vm_compute. intros H.
  repeat match goal with
         | H : well_escaped (_ :: _) |- _ => inversion H; subst; clear H
         end; done.
Defined.

Lemma plain_name_round_trip_witness :
  fst (login after_creation coordinator_phone (str "Field1") registered_world)
  = Normal (mkCredential coordinator_token (str "Field1")).
Proof.
  destruct (plain_name_round_trip before_creation coordinator_phone
              (str "Field1")
              (mkRegistration coordinator_phone (str "Field1"))
              (start sample_entropy) registered_world after_creation
              (Project.mk (str "Field1")))
    as [Hok _]; [|reflexivity..|exact Hok].
  apply (bool_decide_unpack _). by vm_compute.
Defined.

Lemma phone_pattern_bounds_witness :
  (2 <= length member_phone <= 16)%nat.
Proof.
  destruct (phone_pattern_bounds member_phone eq_refl) as [Hlen _].
  exact Hlen.
Defined.

Lemma failed_first_registration_witness :
  snd (register after_creation (str "+15550002222") (str "Field1")
         logged_in_world)
  = logged_in_world.
Proof.
  apply (failed_first_registration after_creation (str "+15550002222")
           (str "Field1") logged_in_world
           (conflictError "Project name already exists"));
    reflexivity.
Defined.

Lemma unregister_frees_name_witness :
  fst (register before_creation (str "+15550002222") (str "Field1")
         (snd (unregister coordinator_phone logged_in_world)))
  = Normal (mkRegistration (str "+15550002222") (str "Field1")).
Proof.
  destruct (unregister_frees_name before_creation coordinator_phone
              (str "+15550002222") (str "Field1") logged_in_world
              (Coordinator.mk coordinator_phone (str "Field1")
                 (Some coordinator_token) (now after_creation))
              "Coordinator successfully unregistered"
              (snd (unregister coordinator_phone logged_in_world)))
    as [Hok _]; [|reflexivity..|exact Hok].
  vm_compute. apply NoDup_singleton.
Defined.
